(** * Function-call relay of [pharmacy_agent.js]

    A shallow embedding of the event handlers of the pharmacy demo front end
    (the [dataChannel.onmessage] and [functionCallSocket.onmessage] handlers,
    the [pendingCalls] table and [endSession]) together with the properties
    of the function-call relay protocol.

    Conventions of the embedding.
    - A value produced by [JSON.parse] is a [jsval]. Numbers are the integers
      ([Z]); fractional and out-of-range numbers are outside the model.
    - A handler is a computation in the monad [M]: it threads the page state
      ([world]), appends to the trace of observable effects, and may throw.
    - [pendingCalls] is a finite map keyed by the integer output index. An
      [output_index] that is present and is not an integer is outside the
      model (outcome [Unmodelled]): such a key would be coerced to a property
      name and could reach properties inherited from [Object.prototype]. *)

From Stdlib Require Import ZArith String Ascii List Lia DecimalString.
From stdpp Require Import base option list gmap strings.

Local Open Scope string_scope.
Local Open Scope Z_scope.

Set Warnings "-register-all".

(** ** JavaScript values *)

(** The fields of an object are its own properties in enumeration order, one
    entry per key. [JUndefined] never occurs inside a parsed value; it is the
    result of reading a property that is not there. *)
Inductive jsval : Type :=
| JUndefined
| JNull
| JBool (b : bool)
| JNum (n : Z)
| JStr (s : string)
| JArr (xs : list jsval)
| JObj (fields : list (string * jsval)).

Module Js.

(** Own property of a parsed object ([JSON.parse] keeps one value per key). *)
Fixpoint assoc (k : string) (fields : list (string * jsval)) : jsval :=
  match fields with
  | [] => JUndefined
  | (k', v) :: rest => if String.eqb k k' then v else assoc k rest
  end.

(** [v.k] for a [v] that is neither [undefined] nor [null]. The handlers
    read only the names type, transcript, response, output, content, item,
    output_index, call_id, name, delta, status, result and message; none of
    them is defined on the prototypes of primitives or arrays. *)
Definition prop (v : jsval) (k : string) : jsval :=
  match v with
  | JObj fields => assoc k fields
  | _ => JUndefined
  end.

(** [v[0]] for a [v] that is neither [undefined] nor [null]. *)
Definition first (v : jsval) : jsval :=
  match v with
  | JArr (x :: _) => x
  | JObj fields => assoc "0" fields
  | JStr (String c _) => JStr (String c EmptyString)
  | _ => JUndefined
  end.

Definition nullish (v : jsval) : bool :=
  match v with
  | JUndefined | JNull => true
  | _ => false
  end.

(** [a ?? b] *)
Definition coalesce (a b : jsval) : jsval := if nullish a then b else a.

(** [v?.k] *)
Definition opt_prop (v : jsval) (k : string) : jsval :=
  if nullish v then JUndefined else prop v k.

(** [v?.[0]] *)
Definition opt_first (v : jsval) : jsval :=
  if nullish v then JUndefined else first v.

(** ToBoolean *)
Definition truthy (v : jsval) : bool :=
  match v with
  | JUndefined | JNull => false
  | JBool b => b
  | JNum n => negb (n =? 0)
  | JStr s => negb (String.eqb s EmptyString)
  | JArr _ | JObj _ => true
  end.

(** [a === b] for values that come from different [JSON.parse] calls (or
    from a literal): two objects or two arrays are then never the same
    reference. *)
Definition strict_eq (a b : jsval) : bool :=
  match a, b with
  | JUndefined, JUndefined => true
  | JNull, JNull => true
  | JBool x, JBool y => Bool.eqb x y
  | JNum x, JNum y => x =? y
  | JStr x, JStr y => String.eqb x y
  | _, _ => false
  end.

Definition string_of_Z (n : Z) : string :=
  NilZero.string_of_int (Z.to_int n).

Fixpoint join (sep : string) (parts : list string) : string :=
  match parts with
  | [] => EmptyString
  | [p] => p
  | p :: rest => p ++ sep ++ join sep rest
  end.

(** Whether a parsed object has the own property [k]. *)
Fixpoint has_key (k : string) (fields : list (string * jsval)) : bool :=
  match fields with
  | [] => false
  | (k', _) :: rest => String.eqb k k' || has_key k rest
  end.

(** ToString, as used by [+=] on a string and by template literals;
    [None] is the TypeError "Cannot convert object to primitive value".
    An object is converted by its [toString] method: the one of
    [Object.prototype] unless the object has an own property of that name,
    which in a parsed value is never callable, and then neither it nor
    [valueOf] yields a primitive. An array is converted by joining the
    conversions of its elements. A number is printed digit by digit, which
    is what the platform prints for the safe integers ([in_range] below). *)
Fixpoint to_string (v : jsval) : option string :=
  match v with
  | JUndefined => Some "undefined"
  | JNull => Some "null"
  | JBool true => Some "true"
  | JBool false => Some "false"
  | JNum n => Some (string_of_Z n)
  | JStr s => Some s
  | JArr xs =>
      join ","
        <$> mapM (fun x => if nullish x then Some EmptyString
                           else to_string x) xs
  | JObj fields =>
      if has_key "toString" fields then None else Some "[object Object]"
  end.

(** The integers that a JavaScript number holds exactly and prints digit
    by digit. *)
Definition safe_integer (n : Z) : bool := Z.abs n <? 2 ^ 53.

(** A value all of whose numbers are safe integers. *)
Fixpoint in_range (v : jsval) : bool :=
  match v with
  | JNum n => safe_integer n
  | JArr xs => forallb in_range xs
  | JObj fields => forallb (fun kv => in_range (snd kv)) fields
  | _ => true
  end.

Definition dquote : ascii := "034"%char.
Definition backslash : ascii := "092"%char.

Definition hex_digit (n : N) : ascii :=
  ascii_of_N (if (n <? 10)%N then 48 + n else 87 + n)%N.

(** One character of QuoteJSONString. A string is the UTF-8 text of the
    JavaScript string, so bytes from 128 on pass through unchanged. *)
Definition quote_char (c : ascii) : string :=
  let n := N_of_ascii c in
  if Ascii.eqb c dquote then String backslash (String dquote EmptyString)
  else if Ascii.eqb c backslash
       then String backslash (String backslash EmptyString)
  else if (n =? 8)%N then String backslash "b"
  else if (n =? 9)%N then String backslash "t"
  else if (n =? 10)%N then String backslash "n"
  else if (n =? 12)%N then String backslash "f"
  else if (n =? 13)%N then String backslash "r"
  else if (n <? 32)%N
       then String backslash
              ("u00" ++ String (hex_digit (n / 16))
                          (String (hex_digit (n mod 16)) EmptyString))
  else String c EmptyString.

Fixpoint quote_body (s : string) : string :=
  match s with
  | EmptyString => EmptyString
  | String c rest => quote_char c ++ quote_body rest
  end.

Definition quote (s : string) : string :=
  String dquote (quote_body s ++ String dquote EmptyString).

(** [JSON.stringify(v)] without indentation: [None] is the result
    [undefined]. A property whose value is [undefined] is left out, an
    [undefined] array element is written as null. *)
Fixpoint stringify (v : jsval) : option string :=
  match v with
  | JUndefined => None
  | JNull => Some "null"
  | JBool true => Some "true"
  | JBool false => Some "false"
  | JNum n => Some (string_of_Z n)
  | JStr s => Some (quote s)
  | JArr xs =>
      Some ("[" ++ join "," (map (fun x => default "null" (stringify x)) xs)
                ++ "]")
  | JObj fields =>
      Some ("{" ++ join ","
              (omap (fun kv => match stringify (snd kv) with
                               | Some t => Some (quote (fst kv) ++ ":" ++ t)
                               | None => None
                               end) fields)
                ++ "}")
  end.

(** [JSON.stringify(v)] as a value: a string or [undefined]. *)
Definition stringify_value (v : jsval) : jsval :=
  match stringify v with
  | Some t => JStr t
  | None => JUndefined
  end.

(** [JSON.stringify(v)] of an object literal is always a string. *)
Definition stringify_text (v : jsval) : string :=
  default EmptyString (stringify v).

End Js.

(** ** The page state, effects and exceptions *)

(** [readyState] of the data channel ("connecting", "open", "closing",
    "closed") and of the WebSocket (CONNECTING, OPEN, CLOSING, CLOSED). *)
Inductive ready_state : Type := Connecting | Open | Closing | Closed.

Inductive exn : Type := SyntaxError | TypeError | InvalidStateError.

(** An entry of [pendingCalls]: the object literal built by the
    "response.output_item.added" case. *)
Record pending_call : Type := PendingCall {
  call_id : jsval;
  name : jsval;
  arguments : string
}.

(** Observable effects, in the order the handlers produce them. *)
Inductive effect : Type :=
| WsSend (payload : string)
    (* a frame transmitted by functionCallSocket.send *)
| DcSend (payload : string)
    (* a message transmitted by dataChannel.send *)
| EventLog (type : string)
    (* the console group of logMessage_oai_events *)
| CallStart (fname cid : string)
    (* console.log of the "[call start]" line *)
| CallExec (fname args : string)
    (* console.log of the "[call exec]" line *)
| HandlerError (e : exn)
    (* console.error(..., e); logMessage("Error", e.message) *)
| BackendLog (text : string)
    (* logMessage("Backend", response) *)
| FeedbackSent
    (* logMessage("System", ...) after a success result was sent *)
| FunctionFailed (message : string)
    (* logMessage("Error", ...) after a failure result was sent *)
| Bubble (delay : Z) (text : jsval) (isUser : bool)
    (* setTimeout(() => addBubble(text, isUser), delay) *)
| AgentSpeak (speaking : bool)
    (* Agent.startAgentSpeak / stopAgentSpeak with the voiceWaves class *)
| SessionEnded.
    (* logMessage("System", ...) at the end of endSession *)

(** The variables of the DOMContentLoaded closure. [None] is a variable
    that was never assigned. *)
Record world : Type := World {
  pendingCalls : gmap Z pending_call;
  dataChannel : option ready_state;
  functionCallSocket : option ready_state;
  peerConnection : option ready_state;
  localStream : option bool;      (* Some true: the tracks are live *)
  currentUIState : string;
  trace : list effect;
  avatarLoaded : bool             (* Agent.indexLibrary is assigned *)
}.

Definition with_pendingCalls (f : gmap Z pending_call -> gmap Z pending_call)
    (w : world) : world :=
  World (f (pendingCalls w)) (dataChannel w) (functionCallSocket w)
        (peerConnection w) (localStream w) (currentUIState w) (trace w)
        (avatarLoaded w).

Definition with_trace (f : list effect -> list effect) (w : world) : world :=
  World (pendingCalls w) (dataChannel w) (functionCallSocket w)
        (peerConnection w) (localStream w) (currentUIState w) (f (trace w))
        (avatarLoaded w).

(** ** The handler monad *)

Inductive outcome (A : Type) : Type :=
| Ok (a : A)
| Throw (e : exn)
| Unmodelled.
Arguments Ok {A} a.
Arguments Throw {A} e.
Arguments Unmodelled {A}.

Definition M (A : Type) : Type := world -> outcome A * world.

#[global] Instance M_ret : MRet M := fun A a w => (Ok a, w).

#[global] Instance M_bind : MBind M := fun A B f m w =>
  match m w with
  | (Ok a, w') => f a w'
  | (Throw e, w') => (Throw e, w')
  | (Unmodelled, w') => (Unmodelled, w')
  end.

Definition throw {A} (e : exn) : M A := fun w => (Throw e, w).
Definition unmodelled {A} : M A := fun w => (Unmodelled, w).
Definition read : M world := fun w => (Ok w, w).
Definition update (f : world -> world) : M unit := fun w => (Ok tt, f w).
Definition emit (e : effect) : M unit :=
  update (with_trace (fun t => (t ++ [e])%list)).

(** [try { body } catch (e) { handler(e) }]: the state reached when the
    exception was thrown is kept. *)
Definition try_catch {A} (body : M A) (handler : exn -> M A) : M A :=
  fun w =>
    match body w with
    | (Throw e, w') => handler e w'
    | r => r
    end.

(** ** The platform *)

(** The two [send] methods belong to the browser, not to the program; they
    are modelled after the WebSocket and WebRTC standards. *)

(** [WebSocket.send]: throws InvalidStateError while CONNECTING, transmits
    when OPEN, and discards the data without raising when CLOSING or CLOSED.
    Calling it on a variable that was never assigned is a TypeError. *)
Definition functionCallSocket_send (payload : string) : M unit :=
  w ← read;
  match functionCallSocket w with
  | None => throw TypeError
  | Some Connecting => throw InvalidStateError
  | Some Open => emit (WsSend payload)
  | Some Closing | Some Closed => mret tt
  end.

(** [RTCDataChannel.send]: throws InvalidStateError unless the channel is
    open. *)
Definition dataChannel_send (payload : string) : M unit :=
  w ← read;
  match dataChannel w with
  | None => throw TypeError
  | Some Open => emit (DcSend payload)
  | Some _ => throw InvalidStateError
  end.

(** [close()] of the data channel or of the WebSocket: the closing
    procedure starts, unless the object is closed already. *)
Definition close (s : ready_state) : ready_state :=
  match s with
  | Closed => Closed
  | _ => Closing
  end.

(** [event.data] handed to [JSON.parse]. *)
Inductive message_data : Type :=
| Malformed
| Parsed (v : jsval).

Definition JSON_parse (data : message_data) : M jsval :=
  match data with
  | Malformed => throw SyntaxError
  | Parsed v => mret v
  end.

(** [v.k]: a TypeError on [undefined] and [null]. *)
Definition get (v : jsval) (k : string) : M jsval :=
  if Js.nullish v then throw TypeError else mret (Js.prop v k).

(** The property key [msg.output_index ?? 0] of [pendingCalls]. *)
Definition slot_of (msg : jsval) : M Z :=
  i ← get msg "output_index";
  match Js.coalesce i (JNum 0) with
  | JNum n => mret n
  | _ => unmodelled
  end.

(** ToString of a value inside a template literal or under [+=]. *)
Definition text_of (v : jsval) : M string :=
  match Js.to_string v with
  | Some t => mret t
  | None => throw TypeError
  end.

(** ** The handlers *)

(** [logMessage_oai_events(sender, message)]: silent for the two delta
    kinds, a console group otherwise. *)
Definition logMessage_oai_events (message : jsval) : M unit :=
  let t := Js.opt_prop message "type" in
  let type := if Js.truthy t then t else JStr "unknown" in
  if Js.strict_eq type (JStr "response.function_call_arguments.delta")
     || Js.strict_eq type (JStr "response.audio_transcript.delta")
  then mret tt
  else t ← text_of type; emit (EventLog t).

(** The cases of [switch (msg.type)]. *)
Inductive event_kind : Type :=
| TranscriptionCompleted
| ResponseDone
| ContentPartAdded
| AudioBufferStopped
| OutputItemAdded       (* also the legacy "response.function_call.created" *)
| ArgumentsDelta
| OutputItemDone
| OtherEvent.

Definition event_kind_of (type : jsval) : event_kind :=
  match type with
  | JStr s =>
      if String.eqb s "conversation.item.input_audio_transcription.completed"
      then TranscriptionCompleted
      else if String.eqb s "response.done" then ResponseDone
      else if String.eqb s "response.content_part.added" then ContentPartAdded
      else if String.eqb s "output_audio_buffer.stopped"
           then AudioBufferStopped
      else if String.eqb s "response.output_item.added" then OutputItemAdded
      else if String.eqb s "response.function_call.created"
           then OutputItemAdded
      else if String.eqb s "response.function_call_arguments.delta"
           then ArgumentsDelta
      else if String.eqb s "response.output_item.done" then OutputItemDone
      else OtherEvent
  | _ => OtherEvent
  end.

(** The object handed to [JSON.stringify(call)]. *)
Definition call_object (call : pending_call) : jsval :=
  JObj [("call_id", call_id call); ("name", name call);
        ("arguments", JStr (arguments call))].

(** case "response.output_item.added" / "response.function_call.created" *)
Definition on_output_item_added (msg : jsval) : M unit :=
  i ← get msg "item";
  let item := Js.coalesce i msg in
  type ← get item "type";
  if Js.strict_eq type (JStr "function_call") then
    idx ← slot_of msg;
    cid ← get item "call_id";
    fname ← get item "name";
    update (with_pendingCalls (insert idx (PendingCall cid fname EmptyString)));;
    fname_text ← text_of fname;
    cid_text ← text_of cid;
    emit (CallStart fname_text cid_text)
  else mret tt.

(** case "response.function_call_arguments.delta" *)
Definition on_arguments_delta (msg : jsval) : M unit :=
  idx ← slot_of msg;
  w ← read;
  match pendingCalls w !! idx with
  | Some call =>
      delta ← get msg "delta";
      delta_text ← text_of delta;
      update (with_pendingCalls
                (insert idx (PendingCall (call_id call) (name call)
                               (arguments call ++ delta_text))))
  | None => mret tt
  end.

(** case "response.output_item.done" *)
Definition on_output_item_done (msg : jsval) : M unit :=
  item ← get msg "item";
  if negb (Js.strict_eq (Js.opt_prop item "type") (JStr "function_call"))
  then mret tt
  else
    idx ← slot_of msg;
    w ← read;
    match pendingCalls w !! idx with
    | Some call =>
        cid ← get item "call_id";
        if Js.strict_eq (call_id call) cid then
          functionCallSocket_send (Js.stringify_text (call_object call));;
          update (with_pendingCalls (delete idx));;
          fname_text ← text_of (name call);
          emit (CallExec fname_text (arguments call))
        else mret tt
    | None => mret tt
    end.

(** The [catch] block of [dataChannel.onmessage]: console.error and
    logMessage("Error", e.message). *)
Definition report (e : exn) : M unit := emit (HandlerError e).

(** [Agent.startAgentSpeak()] / [Agent.stopAgentSpeak()] followed by the
    change of the voiceWaves class: a TypeError on [this.indexLibrary]
    until the avatar scripts have loaded. *)
Definition agent_speak (speaking : bool) : M unit :=
  w ← read;
  if avatarLoaded w then emit (AgentSpeak speaking) else throw TypeError.

(** [dataChannel.onmessage]: the whole body runs inside try/catch. *)
Definition dataChannel_onmessage (data : message_data) : M unit :=
  try_catch
    (msg ← JSON_parse data;
     logMessage_oai_events msg;;
     type ← get msg "type";
     match event_kind_of type with
     | TranscriptionCompleted =>
         transcript ← get msg "transcript";
         if Js.truthy transcript
         then emit (Bubble 0 transcript true)
         else mret tt
     | ResponseDone =>
         let transcript :=
           Js.coalesce
             (Js.opt_prop
                (Js.opt_first
                   (Js.opt_prop
                      (Js.opt_first
                         (Js.opt_prop (Js.opt_prop msg "response") "output"))
                      "content"))
                "transcript")
             (JStr EmptyString) in
         if Js.truthy transcript
         then emit (Bubble 800 transcript false)
         else mret tt
     | ContentPartAdded => agent_speak true
     | AudioBufferStopped => agent_speak false
     | OutputItemAdded => on_output_item_added msg
     | ArgumentsDelta => on_arguments_delta msg
     | OutputItemDone => on_output_item_done msg
     | OtherEvent => mret tt
     end)
    report.

(** [functionCallSocket.onmessage]: no try/catch, an exception leaves the
    handler. *)
Definition functionCallSocket_onmessage (data : message_data) : M unit :=
  response ← JSON_parse data;
  response_text ← text_of response;
  emit (BackendLog response_text);;
  status ← get response "status";
  if Js.strict_eq status (JStr "success") then
    cid ← get response "call_id";
    result ← get response "result";
    let toolOutputEvent :=
      JObj [("type", JStr "conversation.item.create");
            ("item", JObj [("type", JStr "function_call_output");
                           ("call_id", cid);
                           ("output", Js.stringify_value result)])] in
    dataChannel_send (Js.stringify_text toolOutputEvent);;
    dataChannel_send
      (Js.stringify_text (JObj [("type", JStr "response.create")]));;
    emit FeedbackSent
  else
    cid ← get response "call_id";
    message ← get response "message";
    dataChannel_send
      (Js.stringify_text
         (JObj [("type", JStr "conversation.item.create");
                ("item", JObj [("type", JStr "function_call_output");
                               ("call_id", cid);
                               ("error", message)])]));;
    dataChannel_send
      (Js.stringify_text (JObj [("type", JStr "response.create")]));;
    message_text ← text_of message;
    emit (FunctionFailed message_text).

(** [updateUI(newState)], without the DOM. *)
Definition updateUI (newState : string) : M unit :=
  update (fun w =>
    World (pendingCalls w) (dataChannel w) (functionCallSocket w)
          (peerConnection w) (localStream w) newState (trace w)
          (avatarLoaded w)).

(** [peerConnection.close()]: synchronous. The connection is closed at
    once and so are its data channels, without a closing procedure. The
    data channel of the page is a channel of its peer connection, or of an
    earlier one that was closed with it. *)
Definition close_peer (w : world) : world :=
  match peerConnection w with
  | Some _ =>
      World (pendingCalls w) (fmap (fun _ => Closed) (dataChannel w))
            (functionCallSocket w) (Some Closed) (localStream w)
            (currentUIState w) (trace w) (avatarLoaded w)
  | None => w
  end.

(** [endSession()] *)
Definition endSession : M unit :=
  update (fun w =>
    World (pendingCalls w) (dataChannel w) (functionCallSocket w)
          (peerConnection w) (fmap (fun _ => false) (localStream w))
          (currentUIState w) (trace w) (avatarLoaded w));;
  update (fun w =>
    World (pendingCalls w) (fmap close (dataChannel w)) (functionCallSocket w)
          (peerConnection w) (localStream w) (currentUIState w) (trace w)
          (avatarLoaded w));;
  update (fun w =>
    World (pendingCalls w) (dataChannel w) (fmap close (functionCallSocket w))
          (peerConnection w) (localStream w) (currentUIState w) (trace w)
          (avatarLoaded w));;
  update close_peer;;
  updateUI "ready";;
  emit SessionEnded.

(** The event loop delivers the data-channel messages one at a time, in
    arrival order; an exception never leaves [dataChannel.onmessage]. *)
Fixpoint deliver (events : list message_data) : M unit :=
  match events with
  | [] => mret tt
  | data :: rest => dataChannel_onmessage data;; deliver rest
  end.

(** ** Observations on a trace *)

Definition ws_sends (t : list effect) : list string :=
  omap (fun e => match e with WsSend p => Some p | _ => None end) t.

Definition dc_sends (t : list effect) : list string :=
  omap (fun e => match e with DcSend p => Some p | _ => None end) t.

Definition errors (t : list effect) : list exn :=
  omap (fun e => match e with HandlerError x => Some x | _ => None end) t.

(** The slot addressed by an event, when it is inside the model. *)
Definition slot (msg : jsval) : option Z :=
  match Js.coalesce (Js.prop msg "output_index") (JNum 0) with
  | JNum n => Some n
  | _ => None
  end.

(** The state [w] after the effects [es] were appended to its trace. *)
Definition logged (es : list effect) (w : world) : world :=
  with_trace (fun t => (t ++ es)%list) w.

(** What the finalize case writes after [send] has returned: the
    "[call exec]" line, or the TypeError of the template literal when the
    stored name does not convert to a string. *)
Definition exec_log (call : pending_call) : list effect :=
  match Js.to_string (name call) with
  | Some t => [CallExec t (arguments call)]
  | None => [HandlerError TypeError]
  end.

(** The WebSocket reaches OPEN (the platform sets [readyState] before it
    fires [onopen]). *)
Definition socket_opened (w : world) : world :=
  World (pendingCalls w) (dataChannel w) (Some Open) (peerConnection w)
        (localStream w) (currentUIState w) (trace w) (avatarLoaded w).

(** ** The call events, as the handlers recognise them *)

(** A "call started" event for slot [k]. *)
Definition is_call_start (msg : jsval) (k : Z) (cid fname : jsval) : Prop :=
  (Js.prop msg "type" = JStr "response.output_item.added"
   \/ Js.prop msg "type" = JStr "response.function_call.created")
  /\ slot msg = Some k
  /\ Js.prop (Js.prop msg "item") "type" = JStr "function_call"
  /\ Js.prop (Js.prop msg "item") "call_id" = cid
  /\ Js.prop (Js.prop msg "item") "name" = fname.

(** An argument fragment for slot [k]. *)
Definition is_delta (k : Z) (msg : jsval) (fragment : string) : Prop :=
  Js.prop msg "type" = JStr "response.function_call_arguments.delta"
  /\ slot msg = Some k
  /\ Js.prop msg "delta" = JStr fragment.

(** A "call finished" event for slot [k] carrying the call id [cid]. *)
Definition is_call_done (msg : jsval) (k : Z) (cid : jsval) : Prop :=
  Js.prop msg "type" = JStr "response.output_item.done"
  /\ slot msg = Some k
  /\ Js.prop (Js.prop msg "item") "type" = JStr "function_call"
  /\ Js.prop (Js.prop msg "item") "call_id" = cid.

(** [f1 + f2 + ... + fN] *)
Definition concatenation (fragments : list string) : string :=
  String.concat EmptyString fragments.

(** ** Sample data *)

Module Sample.

(** A live session: both channels open, nothing pending. *)
Definition live : world :=
  World ∅ (Some Open) (Some Open) (Some Open) (Some true) "active" [] true.

Definition get_stock : pending_call :=
  PendingCall (JStr "c1") (JStr "get_stock") "{sym:ABC}".

(** A session with one call pending at slot 0. *)
Definition pending (socket channel : ready_state) : world :=
  World {[ 0 := get_stock ]} (Some channel) (Some socket) (Some Open)
        (Some true) "active" [] true.

Definition call_item (cid : string) : jsval :=
  JObj [("type", JStr "function_call"); ("call_id", JStr cid);
        ("name", JStr "get_stock")].

Definition added : jsval :=
  JObj [("type", JStr "response.output_item.added");
        ("output_index", JNum 0); ("item", call_item "c1")].

Definition delta (fragment : string) : jsval :=
  JObj [("type", JStr "response.function_call_arguments.delta");
        ("output_index", JNum 0); ("delta", JStr fragment)].

(** A delta without [output_index]: slot 0 by default. *)
Definition delta_default (fragment : string) : jsval :=
  JObj [("type", JStr "response.function_call_arguments.delta");
        ("delta", JStr fragment)].

Definition done (cid : string) : jsval :=
  JObj [("type", JStr "response.output_item.done");
        ("output_index", JNum 0); ("item", call_item cid)].

(** The end of a message item, sharing output index 0. *)
Definition done_message : jsval :=
  JObj [("type", JStr "response.output_item.done");
        ("output_index", JNum 0);
        ("item", JObj [("type", JStr "message")])].

Definition success : jsval :=
  JObj [("status", JStr "success"); ("call_id", JStr "c1");
        ("result", JObj [("price", JNum 10)])].

Definition failure : jsval :=
  JObj [("status", JStr "failure"); ("call_id", JStr "c1");
        ("message", JStr "boom")].

(** A reply with neither [status] nor [message]. *)
Definition bare : jsval := JObj [("call_id", JStr "c1")].

(** JSON text written by hand: a quoted word, an escaped quoted word and a
    key with its value. *)
Definition q (s : string) : string :=
  String Js.dquote (s ++ String Js.dquote EmptyString).

Definition escaped_q (s : string) : string :=
  String Js.backslash
    (String Js.dquote
       (s ++ String Js.backslash (String Js.dquote EmptyString))).

Definition kv (k v : string) : string := q k ++ ":" ++ v.

Definition braces (body : string) : string := "{" ++ body ++ "}".

(** The two fragments of the arguments of get_stock, with their quotes. *)
Definition fragment1 : string := "{" ++ q "sym" ++ ":".
Definition fragment2 : string := q "ABC" ++ "}".

End Sample.

(** ** What one event may do to the table *)

(** The state [w] with the table replaced by [t]. *)
Definition set_table (t : gmap Z pending_call) (w : world) : world :=
  with_pendingCalls (fun _ => t) w.

(** The table [t'] left by the event [data] delivered in [w], with the
    frames [sent] it transmitted to the backend. *)
Inductive table_effect (data : message_data) (w : world)
    (t' : gmap Z pending_call) (sent : list string) : Prop :=
| Untouched :
    t' = pendingCalls w -> sent = [] -> table_effect data w t' sent
| Created (msg : jsval) (k : Z) (cid fname : jsval) :
    data = Parsed msg -> slot msg = Some k ->
    t' = <[k := PendingCall cid fname EmptyString]> (pendingCalls w) ->
    sent = [] -> table_effect data w t' sent
| Appended (msg : jsval) (k : Z) (call : pending_call) (suffix : string) :
    data = Parsed msg -> slot msg = Some k ->
    pendingCalls w !! k = Some call ->
    t' = <[k := PendingCall (call_id call) (name call)
                   (arguments call ++ suffix)]> (pendingCalls w) ->
    sent = [] -> table_effect data w t' sent
| Dispatched (msg : jsval) (k : Z) (call : pending_call) :
    data = Parsed msg -> slot msg = Some k ->
    pendingCalls w !! k = Some call ->
    t' = delete k (pendingCalls w) ->
    functionCallSocket w = Some Open ->
    sent = [Js.stringify_text (call_object call)] ->
    table_effect data w t' sent
| Discarded (msg : jsval) (k : Z) (call : pending_call) :
    data = Parsed msg -> slot msg = Some k ->
    pendingCalls w !! k = Some call ->
    t' = delete k (pendingCalls w) ->
    functionCallSocket w = Some Closing \/ functionCallSocket w = Some Closed ->
    sent = [] -> table_effect data w t' sent.

(** The state [w] with another [currentUIState]. *)
Definition with_ui (ui : string) (w : world) : world :=
  World (pendingCalls w) (dataChannel w) (functionCallSocket w)
        (peerConnection w) (localStream w) ui (trace w) (avatarLoaded w).

(** A computation that neither reads nor writes [currentUIState]. *)
Definition ui_blind {A} (m : M A) : Prop :=
  forall (w : world) (ui : string),
    m (with_ui ui w) = (fst (m w), with_ui ui (snd (m w))).

(** ** The page around the relay: UI state, mute button, session start *)

Module Ui.

(** Where [primaryButton] sits: in the start popup, in the main button
    bar, or where the HTML put it. *)
Inductive container : Type := InPopup | InMain | Elsewhere.

(** The parts of the document [updateUI] writes. A class list is modelled
    by the one class the script adds and removes. *)
Record dom : Type := Dom {
  overlay_hidden : bool;          (* overlay.classList has "hidden" *)
  overlayText : string;           (* overlayText.textContent *)
  startPopup_hidden : bool;       (* startPopup.classList has "hidden" *)
  button_display : string;        (* primaryButton.style.display *)
  button_html : string;           (* primaryButton.innerHTML *)
  button_disabled : bool;         (* primaryButton.disabled *)
  button_recording : bool;        (* primaryButton.classList has "recording" *)
  button_parent : container;
  statusText : string             (* statusText.textContent *)
}.

(** The body of [updateUI] after the assignment to [currentUIState]. *)
Definition render (newState : string) (d : dom) : dom :=
  let d := Dom (overlay_hidden d) (overlayText d) (startPopup_hidden d)
               "flex" (button_html d) (button_disabled d)
               (button_recording d) (button_parent d) (statusText d) in
  if String.eqb newState "agentLoading" then
    Dom false "エージェントを準備しています..." true "none" (button_html d)
        (button_disabled d) (button_recording d) (button_parent d)
        "準備中..."
  else if String.eqb newState "ready" then
    Dom true (overlayText d) false (button_display d)
        "おはなしをはじめる 🎤" false (button_recording d) InPopup "準備完了"
  else if String.eqb newState "connecting" then
    Dom false "AIに接続しています..." true (button_display d) (button_html d)
        true (button_recording d) (button_parent d) "接続中..."
  else if String.eqb newState "active" then
    Dom true (overlayText d) (startPopup_hidden d) (button_display d)
        "🔇" false true InMain "話してください"
  else if String.eqb newState "muted" then
    Dom (overlay_hidden d) (overlayText d) (startPopup_hidden d)
        (button_display d) "🎤" false false (button_parent d) "ミュート中"
  else d.

(** What the page shows to the operator outside the relay trace. *)
Inductive note : Type :=
| Alert (text : string)           (* alert(text) *)
| ErrorLog (text : string)        (* console.error / logMessage("Error", text) *)
| SystemLog (text : string).      (* logMessage("System", text) *)

Record page : Type := Page {
  session : world;
  view : dom;
  audio_enabled : bool;     (* the enabled flag of the tracks of localStream *)
  audio_elements : nat;     (* audio elements appended to the body *)
  notes : list note
}.

Definition with_session (f : world -> world) (p : page) : page :=
  Page (f (session p)) (view p) (audio_enabled p) (audio_elements p)
       (notes p).

Definition with_notes (ns : list note) (p : page) : page :=
  Page (session p) (view p) (audio_enabled p) (audio_elements p)
       (notes p ++ ns)%list.

(** [updateUI(newState)] *)
Definition updateUI (newState : string) (p : page) : page :=
  Page (with_ui newState (session p)) (render newState (view p))
       (audio_enabled p) (audio_elements p) (notes p).

(** [localStream?.getAudioTracks().forEach((t) => (t.enabled = on))] *)
Definition set_tracks (on : bool) (p : page) : page :=
  match localStream (session p) with
  | Some _ => Page (session p) (view p) on (audio_elements p) (notes p)
  | None => p
  end.

(** [endSession()], with the document: the relay part is [endSession]
    above, whose [updateUI("ready")] also renders. *)
Definition endSession (p : page) : page :=
  Page (snd (endSession (session p))) (render "ready" (view p))
       (audio_enabled p) (audio_elements p) (notes p).

(** The outcome of an awaited platform call. *)
Inductive step_result : Type :=
| Done
| Fails (message : string).

(** The microphone: permission query and [getUserMedia]. *)
Inductive mic_result : Type :=
| MicGranted
| MicDenied       (* the permission state is "denied" *)
| MicFailed.      (* the query or getUserMedia rejects *)

(** The SDP exchange with the proxy. *)
Inductive proxy_result : Type :=
| Unreachable (message : string)    (* fetch rejects *)
| Refused (body : string)           (* the response is not ok *)
| Answered.

(** What the platform answers to one [startSession]. *)
Record session_env : Type := SessionEnv {
  peer : step_result;       (* new RTCPeerConnection() *)
  mic : mic_result;
  offer : step_result;      (* createOffer and setLocalDescription *)
  proxy : proxy_result;
  answer : step_result      (* setRemoteDescription *)
}.

(** The outer [catch] of [startSession]. *)
Definition connection_failed (message : string) (p : page) : page :=
  endSession
    (with_notes [ErrorLog message; Alert ("接続に失敗しました: " ++ message)] p).

(** [startSession()]. The awaited steps are taken in one go, with the
    platform's answers given by [env]; the handlers the function installs
    run later, as events arrive. *)
Definition startSession (env : session_env) (p : page) : page :=
  let p := updateUI "connecting" p in
  let p := Page (session p) (view p) (audio_enabled p)
                (S (audio_elements p)) (notes p) in
  match peer env with
  | Fails message => connection_failed message p
  | Done =>
      let p := with_session (fun w =>
                 World (pendingCalls w) (dataChannel w) (functionCallSocket w)
                       (Some Connecting) (localStream w) (currentUIState w)
                       (trace w) (avatarLoaded w)) p in
      match mic env with
      | MicDenied | MicFailed =>
          updateUI "ready"
            (with_notes
               [Alert "マイクが使用できません。ブラウザ／OS の設定で許可してください。";
                ErrorLog "microphone"] p)
      | MicGranted =>
          let p := Page (session p) (view p) true (audio_elements p)
                        (notes p) in
          let p := with_session (fun w =>
                     World (pendingCalls w) (Some Connecting)
                           (Some Connecting) (peerConnection w) (Some true)
                           (currentUIState w) (trace w) (avatarLoaded w)) p in
          match offer env with
          | Fails message => connection_failed message p
          | Done =>
              match proxy env with
              | Unreachable message => connection_failed message p
              | Refused body =>
                  connection_failed ("プロキシエラー: " ++ body) p
              | Answered =>
                  match answer env with
                  | Fails message => connection_failed message p
                  | Done =>
                      with_notes
                        [SystemLog "リアルタイム接続が確立されました！"] p
                  end
              end
          end
      end
  end.

(** [primaryButton.onclick] *)
Definition onclick (env : session_env) (p : page) : page :=
  let state := currentUIState (session p) in
  if String.eqb state "ready" then startSession env p
  else if String.eqb state "active" then
    updateUI "muted" (set_tracks false p)
  else if String.eqb state "muted" then
    updateUI "active" (set_tracks true p)
  else p.

(** [audioEl.onplaying] *)
Definition onplaying (p : page) : page := updateUI "active" p.

(** [peerConnection.onconnectionstatechange] *)
Definition onconnectionstatechange (connectionState : string) (p : page)
    : page :=
  let p := with_notes [SystemLog ("接続状態: " ++ connectionState)] p in
  if String.eqb connectionState "failed"
     || String.eqb connectionState "disconnected"
  then endSession p
  else p.

(** The microphone is live exactly when the UI says so. *)
Definition in_step (p : page) : Prop :=
  (currentUIState (session p) = "active" -> audio_enabled p = true)
  /\ (currentUIState (session p) = "muted" -> audio_enabled p = false).

(** [String.prototype.padStart(n, fill)] for a one-character [fill]. *)
Fixpoint zeros (n : nat) (fill : ascii) : string :=
  match n with
  | O => EmptyString
  | S n' => String fill (zeros n' fill)
  end.

Definition padStart (n : nat) (fill : ascii) (s : string) : string :=
  zeros (n - String.length s) fill ++ s.

(** The text of [timeDiv] in [addBubble], for the hour and minute of
    [new Date()]. *)
Definition time_label (hours minutes : Z) : string :=
  Js.string_of_Z hours ++ ":" ++ padStart 2 "0"%char (Js.string_of_Z minutes).

End Ui.

(** ** Loading the avatar scripts ([SetAgent.init]) *)

Module Agent.

Inductive event : Type :=
| GetScript (url : option string)   (* jQuery.getScript(requiredResources[i], ...) *)
| InitExp                           (* initExp() *)
| OutOfSteps.                       (* the step budget of the model ran out *)

(** [loadScript(i)], unfolded through the success callbacks of
    [jQuery.getScript], for at most [steps] calls. [loads url] says whether
    the script at [url] loads; the callback runs only if it does. *)
Fixpoint loadScript_steps (loads : option string -> bool)
    (requiredResources : list string) (steps i : nat) : list event :=
  match steps with
  | O => [OutOfSteps]
  | S steps' =>
      let url := requiredResources !! i in
      GetScript url
      :: (if loads url then
            if (i + 1 <? length requiredResources)%nat
            then loadScript_steps loads requiredResources steps' (i + 1)
            else [InitExp]
          else [])
  end.

(** [loadScript(i)]: the index grows towards the length, so
    [length - i] calls (one at least) are enough. *)
Definition loadScript (loads : option string -> bool)
    (requiredResources : list string) (i : nat) : list event :=
  loadScript_steps loads requiredResources
    (Nat.max 1 (length requiredResources - i)) i.

(** The requests for a list of scripts that all load. *)
Definition requests (urls : list string) : list event :=
  map (fun u => GetScript (Some u)) urls.

End Agent.

(** ** Basic facts about the primitives *)

Section Primitives.

Lemma strict_eq_true (a b : jsval) : Js.strict_eq a b = true -> a = b.
Proof.
  destruct a, b; simpl; try discriminate; try reflexivity; intros H.
  - f_equal. now apply Bool.eqb_prop.
  - f_equal. now apply Z.eqb_eq.
  - f_equal. now apply String.eqb_eq.
Qed.

Lemma strict_eq_differ (a b : jsval) : a <> b -> Js.strict_eq a b = false.
Proof.
  intros H. destruct (Js.strict_eq a b) eqn:E; [|reflexivity].
  apply strict_eq_true in E. contradiction.
Qed.

Lemma strict_eq_str (v : jsval) (s : string) :
  Js.strict_eq v (JStr s) = true <-> v = JStr s.
Proof.
  split.
  - apply strict_eq_true.
  - intros ->. simpl. apply String.eqb_refl.
Qed.

Lemma prop_str_object (v : jsval) (k s : string) :
  Js.prop v k = JStr s -> exists fields, v = JObj fields.
Proof. destruct v; simpl; try discriminate. eauto. Qed.

Lemma prop_str_defined (v : jsval) (k s : string) :
  Js.prop v k = JStr s -> Js.nullish v = false.
Proof. intros H. now destruct (prop_str_object _ _ _ H) as [f ->]. Qed.

Lemma get_defined (v : jsval) (k : string) (w : world) :
  Js.nullish v = false -> get v k w = (Ok (Js.prop v k), w).
Proof. intros H. unfold get. now rewrite H. Qed.

Lemma slot_of_slot (msg : jsval) (k : Z) (w : world) :
  Js.nullish msg = false -> slot msg = Some k -> slot_of msg w = (Ok k, w).
Proof.
  intros Hn Hs. unfold slot_of, slot in *.
  unfold mbind, M_bind. rewrite (get_defined _ _ _ Hn).
  destruct (Js.coalesce (Js.prop msg "output_index") (JNum 0));
    try discriminate.
  now inversion Hs.
Qed.

Lemma logged_logged (es es' : list effect) (w : world) :
  logged es' (logged es w) = logged (es ++ es') w.
Proof.
  destruct w. unfold logged, with_trace. simpl. now rewrite <- app_assoc.
Qed.

Lemma logged_nil (w : world) : logged [] w = w.
Proof. destruct w. unfold logged, with_trace. simpl. now rewrite app_nil_r. Qed.

End Primitives.

Ltac unfold_m :=
  unfold try_catch, report, JSON_parse, logMessage_oai_events, text_of, get,
    read, update, emit, throw, unmodelled, mbind, M_bind, mret, M_ret,
    Js.opt_prop.

(** ** Routing: what [dataChannel.onmessage] does for the three call events *)

Section Routing.

Variables (w : world) (msg : jsval).

Lemma route_delta :
  Js.prop msg "type" = JStr "response.function_call_arguments.delta" ->
  dataChannel_onmessage (Parsed msg) w
  = try_catch (on_arguments_delta msg) report w.
Proof.
  intros Ht. destruct (prop_str_object _ _ _ Ht) as [fields ->].
  unfold dataChannel_onmessage. unfold_m.
  cbn -[Js.prop on_arguments_delta]. rewrite Ht. reflexivity.
Qed.

Lemma route_done :
  Js.prop msg "type" = JStr "response.output_item.done" ->
  dataChannel_onmessage (Parsed msg) w
  = try_catch (on_output_item_done msg) report
      (logged [EventLog "response.output_item.done"] w).
Proof.
  intros Ht. destruct (prop_str_object _ _ _ Ht) as [fields ->].
  unfold dataChannel_onmessage. unfold_m.
  cbn -[Js.prop on_output_item_done]. rewrite Ht. reflexivity.
Qed.

Lemma route_added (s : string) :
  s = "response.output_item.added" \/ s = "response.function_call.created" ->
  Js.prop msg "type" = JStr s ->
  dataChannel_onmessage (Parsed msg) w
  = try_catch (on_output_item_added msg) report (logged [EventLog s] w).
Proof.
  intros Hs Ht. destruct (prop_str_object _ _ _ Ht) as [fields ->].
  unfold dataChannel_onmessage. unfold_m.
  cbn -[Js.prop on_output_item_added]. rewrite Ht.
  destruct Hs as [-> | ->]; reflexivity.
Qed.

End Routing.

(** ** The three table operations, case by case *)

Section TableOperations.

Variables (w : world) (msg : jsval) (k : Z).
Hypothesis Hmsg : Js.nullish msg = false.
Hypothesis Hslot : slot msg = Some k.

(** create: the entry is written before the "[call start]" line, whose
    template literal may throw. *)
Lemma added_function_call (item : jsval) :
  Js.coalesce (Js.prop msg "item") msg = item ->
  Js.prop item "type" = JStr "function_call" ->
  exists o es,
    on_output_item_added msg w
    = (o, logged es
            (with_pendingCalls
               (insert k (PendingCall (Js.prop item "call_id")
                                      (Js.prop item "name") EmptyString)) w))
    /\ (o = Ok tt \/ o = Throw TypeError)
    /\ ws_sends es = [] /\ dc_sends es = [] /\ errors es = [].
Proof.
  intros Hi Ht. pose proof (prop_str_defined _ _ _ Ht) as Hn.
  unfold on_output_item_added. unfold_m.
  rewrite Hmsg, Hi, Hn, Ht. cbn -[Js.prop slot_of Js.to_string].
  rewrite (slot_of_slot _ k) by assumption.
  destruct (Js.to_string (Js.prop item "name")) as [a|];
    [destruct (Js.to_string (Js.prop item "call_id")) as [b|]|].
  - exists (Ok tt), [CallStart a b]. repeat split; auto.
  - exists (Throw TypeError), []. rewrite logged_nil. repeat split; auto.
  - exists (Throw TypeError), []. rewrite logged_nil. repeat split; auto.
Qed.

(** appendArgument on a tracked slot *)
Lemma delta_tracked (call : pending_call) :
  pendingCalls w !! k = Some call ->
  on_arguments_delta msg w
  = match Js.to_string (Js.prop msg "delta") with
    | Some t =>
        (Ok tt,
         with_pendingCalls
           (insert k (PendingCall (call_id call) (name call)
                        (arguments call ++ t))) w)
    | None => (Throw TypeError, w)
    end.
Proof.
  intros Hk. unfold on_arguments_delta. unfold_m.
  rewrite (slot_of_slot _ k) by assumption.
  rewrite Hk, Hmsg. now destruct (Js.to_string (Js.prop msg "delta")).
Qed.

(** appendArgument on an untracked slot *)
Lemma delta_untracked :
  pendingCalls w !! k = None -> on_arguments_delta msg w = (Ok tt, w).
Proof.
  intros Hk. unfold on_arguments_delta. unfold_m.
  rewrite (slot_of_slot _ k) by assumption.
  now rewrite Hk.
Qed.

(** finalize: the slot is empty *)
Lemma done_untracked :
  Js.prop (Js.prop msg "item") "type" = JStr "function_call" ->
  pendingCalls w !! k = None -> on_output_item_done msg w = (Ok tt, w).
Proof.
  intros Ht Hk. pose proof (prop_str_defined _ _ _ Ht) as Hn.
  unfold on_output_item_done. unfold_m.
  rewrite Hmsg, Hn, Ht. cbn -[Js.prop slot_of].
  rewrite (slot_of_slot _ k) by assumption.
  now rewrite Hk.
Qed.

(** finalize: the call-id gate is closed *)
Lemma done_gate_closed (call : pending_call) :
  Js.prop (Js.prop msg "item") "type" = JStr "function_call" ->
  pendingCalls w !! k = Some call ->
  Js.strict_eq (call_id call) (Js.prop (Js.prop msg "item") "call_id")
  = false ->
  on_output_item_done msg w = (Ok tt, w).
Proof.
  intros Ht Hk Hg. pose proof (prop_str_defined _ _ _ Ht) as Hn.
  unfold on_output_item_done. unfold_m.
  rewrite Hmsg, Hn, Ht. cbn -[Js.prop slot_of].
  rewrite (slot_of_slot _ k) by assumption.
  now rewrite Hk, ?Hn, Hg.
Qed.

(** finalize: the gate is passed; what happens depends on the socket, and
    the log line comes after the [delete]. *)
Lemma done_gate_passed (call : pending_call) :
  Js.prop (Js.prop msg "item") "type" = JStr "function_call" ->
  pendingCalls w !! k = Some call ->
  Js.strict_eq (call_id call) (Js.prop (Js.prop msg "item") "call_id")
  = true ->
  on_output_item_done msg w
  = match functionCallSocket w with
    | None => (Throw TypeError, w)
    | Some Connecting => (Throw InvalidStateError, w)
    | Some Open =>
        match Js.to_string (name call) with
        | Some t =>
            (Ok tt,
             logged [WsSend (Js.stringify_text (call_object call));
                     CallExec t (arguments call)]
               (with_pendingCalls (delete k) w))
        | None =>
            (Throw TypeError,
             logged [WsSend (Js.stringify_text (call_object call))]
               (with_pendingCalls (delete k) w))
        end
    | Some Closing | Some Closed =>
        match Js.to_string (name call) with
        | Some t =>
            (Ok tt,
             logged [CallExec t (arguments call)]
               (with_pendingCalls (delete k) w))
        | None => (Throw TypeError, with_pendingCalls (delete k) w)
        end
    end.
Proof.
  intros Ht Hk Hg. pose proof (prop_str_defined _ _ _ Ht) as Hn.
  unfold on_output_item_done. unfold_m.
  rewrite Hmsg, Hn, Ht. cbn -[Js.prop slot_of Js.to_string].
  rewrite (slot_of_slot _ k) by assumption.
  rewrite Hk, ?Hn, Hg. unfold functionCallSocket_send. unfold_m.
  destruct w as [pc dc [[| | |]|] peer ls ui tr av]; simpl;
    destruct (Js.to_string (name call)); try reflexivity.
  unfold logged, with_trace, with_pendingCalls. simpl.
  now rewrite <- app_assoc.
Qed.

End TableOperations.

(** finalize of an item that is not a function call *)
Lemma done_other_item (w : world) (msg : jsval) :
  Js.nullish msg = false ->
  Js.opt_prop (Js.prop msg "item") "type" <> JStr "function_call" ->
  on_output_item_done msg w = (Ok tt, w).
Proof.
  intros Hmsg Ht. unfold on_output_item_done.
  unfold try_catch, get, mbind, M_bind, mret, M_ret.
  rewrite Hmsg. now rewrite (strict_eq_differ _ _ Ht).
Qed.

(** ** Strings *)

Lemma append_nil_r (s : string) : (s ++ EmptyString)%string = s.
Proof.
  induction s as [|c s IH]; [reflexivity|].
  change (String c (s ++ EmptyString)%string = String c s). now f_equal.
Qed.

Lemma append_assoc (a b c : string) :
  ((a ++ b) ++ c)%string = (a ++ (b ++ c))%string.
Proof.
  induction a as [|x a IH]; [reflexivity|].
  change (String x ((a ++ b) ++ c)%string = String x (a ++ (b ++ c))%string).
  now f_equal.
Qed.

Lemma concatenation_cons (f : string) (fs : list string) :
  concatenation (f :: fs) = (f ++ concatenation fs)%string.
Proof.
  unfold concatenation. destruct fs as [|g fs]; simpl.
  - now rewrite append_nil_r.
  - reflexivity.
Qed.

(** ** Delivery of a run of fragments *)

Lemma deliver_cons (data : message_data) (rest : list message_data)
    (w w' : world) :
  dataChannel_onmessage data w = (Ok tt, w') ->
  deliver (data :: rest) w = deliver rest w'.
Proof. intros H. simpl. unfold mbind, M_bind. now rewrite H. Qed.

Lemma delta_delivered (w : world) (msg : jsval) (k : Z) (f : string)
    (call : pending_call) :
  is_delta k msg f ->
  pendingCalls w !! k = Some call ->
  dataChannel_onmessage (Parsed msg) w
  = (Ok tt,
     with_pendingCalls
       (insert k (PendingCall (call_id call) (name call)
                    (arguments call ++ f))) w).
Proof.
  intros (Ht & Hs & Hd) Hk.
  rewrite route_delta by exact Ht. unfold try_catch.
  rewrite (delta_tracked w msg k (prop_str_defined _ _ _ Ht) Hs call Hk).
  now rewrite Hd.
Qed.

Lemma deltas_delivered (k : Z) (deltas : list jsval) (fragments : list string) :
  Forall2 (is_delta k) deltas fragments ->
  forall (w : world) (call : pending_call),
    pendingCalls w !! k = Some call ->
    deliver (map Parsed deltas) w
    = (Ok tt,
       with_pendingCalls
         (insert k (PendingCall (call_id call) (name call)
                      (arguments call ++ concatenation fragments))) w).
Proof.
  induction 1 as [|d f ds fs Hd _ IH]; intros w call Hk.
  - simpl. unfold mret, M_ret. f_equal.
    unfold concatenation. simpl. rewrite append_nil_r.
    destruct w, call. unfold with_pendingCalls. simpl in *.
    f_equal. symmetry. now apply insert_id.
  - simpl map. rewrite (deliver_cons _ _ _ _ (delta_delivered _ _ _ _ _ Hd Hk)).
    rewrite (IH _ (PendingCall (call_id call) (name call)
                     (arguments call ++ f))).
    + simpl. rewrite concatenation_cons, append_assoc.
      f_equal. destruct w. unfold with_pendingCalls. simpl.
      f_equal. apply insert_insert_eq.
    + simpl. apply lookup_insert_eq.
Qed.

Lemma call_start_delivered (w : world) (msg : jsval) (k : Z)
    (cid fname : jsval) :
  is_call_start msg k cid fname ->
  exists es,
    dataChannel_onmessage (Parsed msg) w
    = (Ok tt,
       logged es
         (with_pendingCalls (insert k (PendingCall cid fname EmptyString)) w))
    /\ ws_sends es = [] /\ dc_sends es = [].
Proof.
  intros (Ht & Hs & Hi & Hc & Hn).
  assert (exists s, (s = "response.output_item.added"
                     \/ s = "response.function_call.created")
                    /\ Js.prop msg "type" = JStr s) as (s & Hs' & Ht').
  { destruct Ht as [Ht | Ht]; eexists; (split; [|exact Ht]); auto. }
  rewrite (route_added w msg s Hs' Ht'). unfold try_catch.
  pose proof (prop_str_defined _ _ _ Ht') as Hmsg.
  pose proof (prop_str_defined _ _ _ Hi) as Hitem.
  assert (Js.coalesce (Js.prop msg "item") msg = Js.prop msg "item") as Hco.
  { unfold Js.coalesce. now rewrite Hitem. }
  destruct (added_function_call (logged [EventLog s] w) msg k Hmsg Hs
              (Js.prop msg "item") Hco Hi)
    as (o & es & -> & Ho & Hws & Hdc & _).
  rewrite Hc, Hn.
  destruct Ho as [-> | ->].
  - exists ([EventLog s] ++ es)%list. split; [|split].
    + rewrite <- logged_logged. reflexivity.
    + exact Hws.
    + exact Hdc.
  - exists ([EventLog s] ++ es ++ [HandlerError TypeError])%list.
    split; [|split].
    + unfold report, emit, update.
      rewrite <- !logged_logged. reflexivity.
    + unfold ws_sends in *. rewrite !omap_app, Hws. reflexivity.
    + unfold dc_sends in *. rewrite !omap_app, Hdc. reflexivity.
Qed.

Lemma call_done_delivered (w : world) (msg : jsval) (k : Z) (cid : jsval)
    (call : pending_call) :
  is_call_done msg k cid ->
  pendingCalls w !! k = Some call ->
  Js.strict_eq (call_id call) cid = true ->
  dataChannel_onmessage (Parsed msg) w
  = (Ok tt,
     match functionCallSocket w with
     | None =>
         logged [EventLog "response.output_item.done";
                 HandlerError TypeError] w
     | Some Connecting =>
         logged [EventLog "response.output_item.done";
                 HandlerError InvalidStateError] w
     | Some Open =>
         logged ([EventLog "response.output_item.done";
                  WsSend (Js.stringify_text (call_object call))]
                 ++ exec_log call)
           (with_pendingCalls (delete k) w)
     | Some Closing | Some Closed =>
         logged (EventLog "response.output_item.done" :: exec_log call)
           (with_pendingCalls (delete k) w)
     end).
Proof.
  intros (Ht & Hs & Hi & Hc) Hk Hg. subst cid.
  rewrite (route_done w msg Ht). unfold try_catch.
  pose proof (prop_str_defined _ _ _ Ht) as Hmsg.
  rewrite (done_gate_passed (logged [EventLog "response.output_item.done"] w)
             msg k Hmsg Hs call Hi Hk Hg).
  unfold exec_log.
  destruct w as [pc dc [[| | |]|] peer ls ui tr av];
    destruct (Js.to_string (name call));
    unfold report, emit, update, logged, with_trace, with_pendingCalls;
    simpl; now rewrite <- ?app_assoc.
Qed.

Lemma ws_sends_app (t u : list effect) :
  ws_sends (t ++ u)%list = (ws_sends t ++ ws_sends u)%list.
Proof. unfold ws_sends. apply omap_app. Qed.

Lemma dc_sends_app (t u : list effect) :
  dc_sends (t ++ u)%list = (dc_sends t ++ dc_sends u)%list.
Proof. unfold dc_sends. apply omap_app. Qed.

Lemma errors_app (t u : list effect) :
  errors (t ++ u)%list = (errors t ++ errors u)%list.
Proof. unfold errors. apply omap_app. Qed.

Lemma trace_logged (es : list effect) (w : world) :
  trace (logged es w) = (trace w ++ es)%list.
Proof. reflexivity. Qed.

Lemma exec_log_quiet (call : pending_call) :
  ws_sends (exec_log call) = [] /\ dc_sends (exec_log call) = [].
Proof. unfold exec_log. now destruct (Js.to_string (name call)). Qed.

(** ** A session, end to end *)

(** The call get_stock is created at slot 0, assembled from two fragments,
    finalized and dispatched as one frame whose arguments are the raw
    argument text. *)
Example relay_dispatches_assembled_call :
  ws_sends
    (trace
       (snd (deliver
               [Parsed Sample.added;
                Parsed (Sample.delta Sample.fragment1);
                Parsed (Sample.delta_default Sample.fragment2);
                Parsed (Sample.done "c1")] Sample.live)))
  = [Sample.braces
       (Sample.kv "call_id" (Sample.q "c1") ++ ","
        ++ Sample.kv "name" (Sample.q "get_stock") ++ ","
        ++ Sample.kv "arguments"
             (Sample.q ("{" ++ Sample.escaped_q "sym" ++ ":"
                            ++ Sample.escaped_q "ABC" ++ "}")))].
Proof. vm_compute. reflexivity. Qed.

(** A success result comes back as an item whose output is the JSON text
    of the result, followed by response.create. *)
Example relay_feeds_back_success :
  dc_sends
    (trace (snd (functionCallSocket_onmessage (Parsed Sample.success)
                   Sample.live)))
  = [Sample.braces
       (Sample.kv "type" (Sample.q "conversation.item.create") ++ ","
        ++ Sample.kv "item"
             (Sample.braces
                (Sample.kv "type" (Sample.q "function_call_output") ++ ","
                 ++ Sample.kv "call_id" (Sample.q "c1") ++ ","
                 ++ Sample.kv "output"
                      (Sample.q ("{" ++ Sample.escaped_q "price"
                                     ++ ":10}")))));
     Sample.braces (Sample.kv "type" (Sample.q "response.create"))].
Proof. vm_compute. reflexivity. Qed.

(** A failure result with message boom comes back as an item with that
    error and no output. *)
Example relay_feeds_back_failure :
  dc_sends
    (trace (snd (functionCallSocket_onmessage (Parsed Sample.failure)
                   Sample.live)))
  = [Sample.braces
       (Sample.kv "type" (Sample.q "conversation.item.create") ++ ","
        ++ Sample.kv "item"
             (Sample.braces
                (Sample.kv "type" (Sample.q "function_call_output") ++ ","
                 ++ Sample.kv "call_id" (Sample.q "c1") ++ ","
                 ++ Sample.kv "error" (Sample.q "boom"))));
     Sample.braces (Sample.kv "type" (Sample.q "response.create"))].
Proof. vm_compute. reflexivity. Qed.

(** The legacy event name only starts a call when the event carries an
    item: on its own the event is its own item, and its type is the event
    name, never "function_call". *)
Example legacy_event_without_item_creates_nothing :
  pendingCalls
    (snd (dataChannel_onmessage
            (Parsed (JObj [("type", JStr "response.function_call.created");
                           ("call_id", JStr "c1");
                           ("name", JStr "get_stock")])) Sample.live))
  = ∅.
Proof. vm_compute. reflexivity. Qed.

(** * The claims *)

(** C1 (order-preserving assembly). After a "call started" event for slot
    [k] and fragments [f1 .. fN] for that slot, delivered in arrival order,
    the entry at [k] holds the call id and name of the start event and the
    argument string [f1 + ... + fN]; a finalize event that passes the call-id
    gate while the backend socket is open transmits exactly that string as
    the arguments of the call. *)
Theorem order_preserving_assembly (w : world) (start : jsval)
    (deltas : list jsval) (fragments : list string) (k : Z)
    (cid fname : jsval) :
  is_call_start start k cid fname ->
  Forall2 (is_delta k) deltas fragments ->
  exists w',
    deliver (Parsed start :: map Parsed deltas) w = (Ok tt, w')
    /\ pendingCalls w' !! k
       = Some (PendingCall cid fname (concatenation fragments))
    /\ forall (finish : jsval) (cid' : jsval),
         is_call_done finish k cid' ->
         Js.strict_eq cid cid' = true ->
         functionCallSocket w' = Some Open ->
         exists w'',
           dataChannel_onmessage (Parsed finish) w' = (Ok tt, w'')
           /\ ws_sends (trace w'')
              = (ws_sends (trace w')
                 ++ [Js.stringify_text
                       (JObj [("call_id", cid); ("name", fname);
                              ("arguments",
                               JStr (concatenation fragments))])])%list.
Proof.
  intros Hstart Hdeltas.
  destruct (call_start_delivered w start k cid fname Hstart)
    as (es & Hs & _ & _).
  set (w1 := logged es
               (with_pendingCalls
                  (insert k (PendingCall cid fname EmptyString)) w)) in *.
  assert (pendingCalls w1 !! k = Some (PendingCall cid fname EmptyString))
    as Hk1 by (destruct w; simpl; apply lookup_insert_eq).
  set (call := PendingCall cid fname (concatenation fragments)).
  exists (with_pendingCalls (insert k call) w1).
  assert (pendingCalls (with_pendingCalls (insert k call) w1) !! k
          = Some call) as Hk2 by (destruct w; simpl; apply lookup_insert_eq).
  split; [|split].
  - rewrite (deliver_cons _ _ _ _ Hs).
    exact (deltas_delivered k deltas fragments Hdeltas w1 _ Hk1).
  - exact Hk2.
  - intros finish cid' Hdone Hgate Hopen.
    rewrite (call_done_delivered _ finish k cid' call Hdone Hk2 Hgate).
    rewrite Hopen. eexists. split; [reflexivity|].
    destruct (exec_log_quiet call) as [Hq _].
    rewrite trace_logged, !ws_sends_app, Hq. reflexivity.
Qed.

Lemma order_preserving_assembly_witness :
  exists w',
    deliver (Parsed Sample.added
             :: map Parsed [Sample.delta_default "{sym:"; Sample.delta "ABC}"])
      Sample.live = (Ok tt, w')
    /\ pendingCalls w' !! 0
       = Some (PendingCall (JStr "c1") (JStr "get_stock")
                 (concatenation ["{sym:"; "ABC}"]))
    /\ forall (finish : jsval) (cid' : jsval),
         is_call_done finish 0 cid' ->
         Js.strict_eq (JStr "c1") cid' = true ->
         functionCallSocket w' = Some Open ->
         exists w'',
           dataChannel_onmessage (Parsed finish) w' = (Ok tt, w'')
           /\ ws_sends (trace w'')
              = (ws_sends (trace w')
                 ++ [Js.stringify_text
                       (JObj [("call_id", JStr "c1");
                              ("name", JStr "get_stock");
                              ("arguments",
                               JStr (concatenation ["{sym:"; "ABC}"]))])])%list.
Proof.
  apply (order_preserving_assembly Sample.live Sample.added).
  - unfold is_call_start. repeat split; try reflexivity. left. reflexivity.
  - repeat constructor.
Defined.

(** C2 (call-id gate). A finalize event for a slot that holds an entry whose
    recorded call id differs from the call id of the event dispatches
    nothing: the handler only writes its event log line, and the table and
    both channels are as before. *)
Theorem call_id_gate (w : world) (finish : jsval) (k : Z) (cid : jsval)
    (call : pending_call) :
  is_call_done finish k cid ->
  pendingCalls w !! k = Some call ->
  call_id call <> cid ->
  dataChannel_onmessage (Parsed finish) w
  = (Ok tt, logged [EventLog "response.output_item.done"] w)
  /\ ws_sends (trace (logged [EventLog "response.output_item.done"] w))
     = ws_sends (trace w).
Proof.
  intros (Ht & Hs & Hi & Hc) Hk Hne. subst cid. split.
  - rewrite (route_done w finish Ht). unfold try_catch.
    pose proof (prop_str_defined _ _ _ Ht) as Hmsg.
    now rewrite (done_gate_closed
                   (logged [EventLog "response.output_item.done"] w)
                   finish k Hmsg Hs call Hi Hk (strict_eq_differ _ _ Hne)).
  - destruct w. simpl. rewrite ws_sends_app. simpl. apply app_nil_r.
Qed.

Lemma call_id_gate_witness :
  dataChannel_onmessage (Parsed (Sample.done "c2"))
    (Sample.pending Open Open)
  = (Ok tt,
     logged [EventLog "response.output_item.done"] (Sample.pending Open Open))
  /\ ws_sends (trace (logged [EventLog "response.output_item.done"]
                        (Sample.pending Open Open)))
     = ws_sends (trace (Sample.pending Open Open)).
Proof.
  apply (call_id_gate (Sample.pending Open Open) (Sample.done "c2") 0
           (JStr "c2") Sample.get_stock).
  - repeat split; reflexivity.
  - reflexivity.
  - simpl. discriminate.
Defined.

(** C8 (unknown-slot fragment). An argument fragment for a slot that has no
    entry changes nothing at all: the handler returns normally and the page
    state, including the table and the trace of sends, logs and errors, is
    the one it started from. *)
Theorem unknown_slot_fragment_noop (w : world) (msg : jsval) (k : Z) :
  Js.prop msg "type" = JStr "response.function_call_arguments.delta" ->
  slot msg = Some k ->
  pendingCalls w !! k = None ->
  dataChannel_onmessage (Parsed msg) w = (Ok tt, w).
Proof.
  intros Ht Hs Hk. rewrite (route_delta w msg Ht). unfold try_catch.
  now rewrite (delta_untracked w msg k (prop_str_defined _ _ _ Ht) Hs Hk).
Qed.

Lemma unknown_slot_fragment_noop_witness :
  dataChannel_onmessage (Parsed (Sample.delta_default "{sym:")) Sample.live
  = (Ok tt, Sample.live).
Proof.
  apply (unknown_slot_fragment_noop Sample.live
           (Sample.delta_default "{sym:") 0); reflexivity.
Defined.

(** C10 (finalize of another item kind). A "response.output_item.done" event
    whose item is absent, or whose item type is not "function_call", leaves
    the table unchanged, so a pending call at the same output index survives,
    and dispatches nothing: the handler only writes its event log line. *)
Theorem done_of_other_item_keeps_table (w : world) (msg : jsval) :
  Js.prop msg "type" = JStr "response.output_item.done" ->
  Js.opt_prop (Js.prop msg "item") "type" <> JStr "function_call" ->
  dataChannel_onmessage (Parsed msg) w
  = (Ok tt, logged [EventLog "response.output_item.done"] w)
  /\ pendingCalls (logged [EventLog "response.output_item.done"] w)
     = pendingCalls w
  /\ ws_sends (trace (logged [EventLog "response.output_item.done"] w))
     = ws_sends (trace w).
Proof.
  intros Ht Hi. split; [|split].
  - rewrite (route_done w msg Ht). unfold try_catch.
    now rewrite (done_other_item _ msg (prop_str_defined _ _ _ Ht) Hi).
  - reflexivity.
  - destruct w. simpl. rewrite ws_sends_app. simpl. apply app_nil_r.
Qed.

Lemma done_of_other_item_keeps_table_witness :
  dataChannel_onmessage (Parsed Sample.done_message)
    (Sample.pending Open Open)
  = (Ok tt,
     logged [EventLog "response.output_item.done"] (Sample.pending Open Open))
  /\ pendingCalls (logged [EventLog "response.output_item.done"]
                     (Sample.pending Open Open))
     = pendingCalls (Sample.pending Open Open)
  /\ ws_sends (trace (logged [EventLog "response.output_item.done"]
                        (Sample.pending Open Open)))
     = ws_sends (trace (Sample.pending Open Open)).
Proof.
  apply (done_of_other_item_keeps_table (Sample.pending Open Open)
           Sample.done_message).
  - reflexivity.
  - simpl. discriminate.
Defined.

(** Finalize on a socket whose [send] returns: the entry is gone, and a
    second finalize for the slot finds nothing to dispatch. *)
Lemma finalize_twice_when_send_returns (w : world) (finish : jsval) (k : Z)
    (cid : jsval) (call : pending_call) (s : ready_state) :
  is_call_done finish k cid ->
  pendingCalls w !! k = Some call ->
  Js.strict_eq (call_id call) cid = true ->
  functionCallSocket w = Some s ->
  s <> Connecting ->
  exists w1,
    dataChannel_onmessage (Parsed finish) w = (Ok tt, w1)
    /\ pendingCalls w1 = delete k (pendingCalls w)
    /\ dataChannel_onmessage (Parsed finish) w1
       = (Ok tt, logged [EventLog "response.output_item.done"] w1).
Proof.
  intros Hdone Hk Hg Hsock Hs.
  rewrite (call_done_delivered w finish k cid call Hdone Hk Hg), Hsock.
  destruct Hdone as (Ht & Hsl & Hi & Hc).
  pose proof (prop_str_defined _ _ _ Ht) as Hmsg.
  assert (forall es, dataChannel_onmessage (Parsed finish)
                       (logged es (with_pendingCalls (delete k) w))
                     = (Ok tt, logged [EventLog "response.output_item.done"]
                                 (logged es (with_pendingCalls (delete k) w))))
    as Hsecond.
  { intros es. rewrite (route_done _ finish Ht). unfold try_catch.
    rewrite (done_untracked _ finish k Hmsg Hsl Hi); [reflexivity|].
    destruct w. simpl. apply lookup_delete_eq. }
  destruct s; try contradiction; eexists; (split; [reflexivity|]);
    (split; [now destruct w | apply Hsecond]).
Qed.

(** C3 (removal at finalize), evaluated where it fails. The backend socket
    is still connecting when the finalize event for the call at slot 0
    arrives: [send] throws, the [delete] after it is skipped and the entry
    stays in the table. When the same finalize event arrives again after the
    socket has opened, with no create event in between, the call is
    dispatched. *)
Example finalize_keeps_entry_when_send_throws :
  let first :=
    dataChannel_onmessage (Parsed (Sample.done "c1"))
      (Sample.pending Connecting Open) in
  let second :=
    dataChannel_onmessage (Parsed (Sample.done "c1"))
      (socket_opened (snd first)) in
  fst first = Ok tt
  /\ errors (trace (snd first)) = [InvalidStateError]
  /\ ws_sends (trace (snd first)) = []
  /\ pendingCalls (snd first) !! 0 = Some Sample.get_stock
  /\ ws_sends (trace (snd second))
     = [Js.stringify_text (call_object Sample.get_stock)]
  /\ pendingCalls (snd second) !! 0 = None.
Proof. vm_compute. repeat split; reflexivity. Qed.

(** C6, where it fails: the backend socket is closed when the finalize event
    arrives. [send] returns without raising, so the handler reports no
    error: it removes the entry and logs the call as executed. *)
Lemma closed_socket_reports_no_error :
  let after :=
    dataChannel_onmessage (Parsed (Sample.done "c1"))
      (Sample.pending Closed Open) in
  fst after = Ok tt
  /\ errors (trace (snd after)) = []
  /\ trace (snd after)
     = [EventLog "response.output_item.done";
        CallExec "get_stock" "{sym:ABC}"].
Proof. vm_compute. repeat split; reflexivity. Qed.

(** C6, amended. When a finalize event passes the call-id gate while the
    backend socket is not open, nothing is transmitted to the backend and
    nothing is sent to the model. If the socket is still connecting, [send]
    throws and the catch block reports the InvalidStateError. If the socket
    is closing or closed, [send] returns: the entry is removed and the
    discarded send is not reported. The handler then writes its call-exec
    log line; when the stored name converts to a string no error is
    reported at all (and, the name being in the range of the model, the
    trace grows by the event line and that line only), and otherwise the
    TypeError of that line is the one error reported. *)
Theorem dispatch_on_unready_socket (w : world) (finish : jsval) (k : Z)
    (cid : jsval) (call : pending_call) (s : ready_state) :
  is_call_done finish k cid ->
  pendingCalls w !! k = Some call ->
  Js.strict_eq (call_id call) cid = true ->
  functionCallSocket w = Some s ->
  s <> Open ->
  exists w',
    dataChannel_onmessage (Parsed finish) w = (Ok tt, w')
    /\ ws_sends (trace w') = ws_sends (trace w)
    /\ dc_sends (trace w') = dc_sends (trace w)
    /\ (s = Connecting ->
        errors (trace w') = (errors (trace w) ++ [InvalidStateError])%list)
    /\ (s <> Connecting ->
        pendingCalls w' = delete k (pendingCalls w)
        /\ (forall t, Js.to_string (name call) = Some t ->
                      errors (trace w') = errors (trace w)
                      /\ (Js.in_range (name call) = true ->
                          trace w'
                          = (trace w
                             ++ [EventLog "response.output_item.done";
                                 CallExec t (arguments call)])%list))
        /\ (Js.to_string (name call) = None ->
            errors (trace w') = (errors (trace w) ++ [TypeError])%list)).
Proof.
  intros Hdone Hk Hg Hsock Hs.
  rewrite (call_done_delivered w finish k cid call Hdone Hk Hg), Hsock.
  destruct (exec_log_quiet call) as [Hq Hq'].
  destruct s; try contradiction; eexists; (split; [reflexivity|]);
    rewrite !trace_logged, !ws_sends_app, !dc_sends_app, !errors_app.
  - simpl. rewrite !app_nil_r.
    split; [reflexivity|]. split; [reflexivity|].
    split; [intros _; reflexivity|]. intros H. now contradiction H.
  - change (EventLog "response.output_item.done" :: exec_log call)
      with ([EventLog "response.output_item.done"] ++ exec_log call)%list.
    rewrite !ws_sends_app, !dc_sends_app, !errors_app, Hq, Hq'.
    simpl. rewrite !app_nil_r.
    split; [reflexivity|]. split; [reflexivity|].
    split; [discriminate|]. intros _. split; [now destruct w|].
    unfold exec_log. split.
    + intros t ->. simpl. rewrite app_nil_r. split; reflexivity.
    + intros ->. reflexivity.
  - change (EventLog "response.output_item.done" :: exec_log call)
      with ([EventLog "response.output_item.done"] ++ exec_log call)%list.
    rewrite !ws_sends_app, !dc_sends_app, !errors_app, Hq, Hq'.
    simpl. rewrite !app_nil_r.
    split; [reflexivity|]. split; [reflexivity|].
    split; [discriminate|]. intros _. split; [now destruct w|].
    unfold exec_log. split.
    + intros t ->. simpl. rewrite app_nil_r. split; reflexivity.
    + intros ->. reflexivity.
Qed.

Lemma dispatch_on_unready_socket_witness :
  exists w',
    dataChannel_onmessage (Parsed (Sample.done "c1"))
      (Sample.pending Closing Open) = (Ok tt, w')
    /\ ws_sends (trace w') = ws_sends (trace (Sample.pending Closing Open))
    /\ dc_sends (trace w') = dc_sends (trace (Sample.pending Closing Open))
    /\ (Closing = Connecting ->
        errors (trace w')
        = (errors (trace (Sample.pending Closing Open))
           ++ [InvalidStateError])%list)
    /\ (Closing <> Connecting ->
        pendingCalls w' = delete 0 (pendingCalls (Sample.pending Closing Open))
        /\ (forall t, Js.to_string (name Sample.get_stock) = Some t ->
                      errors (trace w')
                      = errors (trace (Sample.pending Closing Open))
                      /\ (Js.in_range (name Sample.get_stock) = true ->
                          trace w'
                          = (trace (Sample.pending Closing Open)
                             ++ [EventLog "response.output_item.done";
                                 CallExec t
                                   (arguments Sample.get_stock)])%list))
        /\ (Js.to_string (name Sample.get_stock) = None ->
            errors (trace w')
            = (errors (trace (Sample.pending Closing Open))
               ++ [TypeError])%list)).
Proof.
  apply (dispatch_on_unready_socket (Sample.pending Closing Open)
           (Sample.done "c1") 0 (JStr "c1") Sample.get_stock Closing).
  - repeat split; reflexivity.
  - reflexivity.
  - reflexivity.
  - reflexivity.
  - discriminate.
Defined.

(** ** The feedback emitter *)

Section Feedback.

Variables (w : world) (response : jsval) (text : string).
Hypothesis Hresponse : Js.nullish response = false.
Hypothesis Htext : Js.to_string response = Some text.

Lemma success_delivered :
  Js.prop response "status" = JStr "success" ->
  dataChannel w = Some Open ->
  functionCallSocket_onmessage (Parsed response) w
  = (Ok tt,
     logged
       [BackendLog text;
        DcSend
          (Js.stringify_text
             (JObj [("type", JStr "conversation.item.create");
                    ("item",
                     JObj [("type", JStr "function_call_output");
                           ("call_id", Js.prop response "call_id");
                           ("output",
                            Js.stringify_value
                              (Js.prop response "result"))])]));
        DcSend (Js.stringify_text (JObj [("type", JStr "response.create")]));
        FeedbackSent] w).
Proof.
  intros Hs Hopen. unfold functionCallSocket_onmessage, dataChannel_send.
  unfold_m. rewrite Htext, Hresponse, Hs.
  destruct w. simpl in *. rewrite Hopen. unfold_m.
  unfold logged, with_trace. simpl. now rewrite <- !app_assoc.
Qed.

(** The failure path: both messages go out before the final log line,
    whose template literal throws when the message does not convert to a
    string. *)
Lemma failure_delivered :
  Js.prop response "status" <> JStr "success" ->
  dataChannel w = Some Open ->
  functionCallSocket_onmessage (Parsed response) w
  = let sent :=
      [BackendLog text;
       DcSend
         (Js.stringify_text
            (JObj [("type", JStr "conversation.item.create");
                   ("item",
                    JObj [("type", JStr "function_call_output");
                          ("call_id", Js.prop response "call_id");
                          ("error", Js.prop response "message")])]));
       DcSend (Js.stringify_text (JObj [("type", JStr "response.create")]))]
    in
    match Js.to_string (Js.prop response "message") with
    | Some t => (Ok tt, logged (sent ++ [FunctionFailed t]) w)
    | None => (Throw TypeError, logged sent w)
    end.
Proof.
  intros Hs Hopen. unfold functionCallSocket_onmessage, dataChannel_send.
  unfold_m. rewrite Htext, Hresponse, (strict_eq_differ _ _ Hs).
  destruct w. simpl in *. rewrite Hopen. unfold_m.
  destruct (Js.to_string (Js.prop response "message"));
    unfold logged, with_trace; simpl; now rewrite <- !app_assoc.
Qed.

(** The data channel is not open: the first [send] throws and, as the
    handler has no try/catch, the exception leaves it. *)
Lemma feedback_on_unready_channel (s : ready_state) :
  dataChannel w = Some s ->
  s <> Open ->
  functionCallSocket_onmessage (Parsed response) w
  = (Throw InvalidStateError, logged [BackendLog text] w).
Proof.
  intros Hdc Hs. unfold functionCallSocket_onmessage, dataChannel_send.
  unfold_m. rewrite Htext, Hresponse.
  destruct w. simpl in *. rewrite Hdc.
  destruct (Js.strict_eq (Js.prop response "status") (JStr "success"));
    destruct s; try contradiction; reflexivity.
Qed.

End Feedback.

(** The reply does not convert to a string: the Backend log line throws
    before anything is sent. *)
Lemma feedback_of_unprintable_reply (w : world) (response : jsval) :
  Js.to_string response = None ->
  functionCallSocket_onmessage (Parsed response) w = (Throw TypeError, w).
Proof.
  intros H. unfold functionCallSocket_onmessage. unfold_m. now rewrite H.
Qed.

(** A reply with the fields of a call result (call_id, status, result,
    message), or any object without an own property toString, converts. *)
Lemma plain_object_converts (fields : list (string * jsval)) :
  Js.has_key "toString" fields = false ->
  Js.to_string (JObj fields) = Some "[object Object]".
Proof. intros H. simpl. now rewrite H. Qed.

(** A property whose value is [undefined] does not reach the wire. *)
Lemma stringify_skips_undefined (before after : list (string * jsval))
    (k : string) :
  Js.stringify (JObj (before ++ (k, JUndefined) :: after))
  = Js.stringify (JObj (before ++ after)).
Proof.
  simpl. do 3 f_equal. rewrite !omap_app. reflexivity.
Qed.

(** C4 (feedback shape). With the realtime channel open, a backend result
    that converts to a string for the Backend log line (an object without
    an own property toString) makes the emitter send exactly two messages,
    in this order: a conversation.item.create whose item has type
    function_call_output and the call id of the result, then one
    response.create. On success the item's output is the JSON text of the
    result payload, it has no error, and the handler returns normally; on
    any other status its error is the result's message and it has no
    output, and the handler returns normally when the message converts to
    a string. *)
Theorem feedback_two_messages (w : world) (response : jsval) (text : string) :
  Js.nullish response = false ->
  Js.to_string response = Some text ->
  dataChannel w = Some Open ->
  exists (item : jsval) (o : outcome unit) (w' : world),
    functionCallSocket_onmessage (Parsed response) w = (o, w')
    /\ dc_sends (trace w')
       = (dc_sends (trace w)
          ++ [Js.stringify_text
                (JObj [("type", JStr "conversation.item.create");
                       ("item", item)]);
              Js.stringify_text (JObj [("type", JStr "response.create")])])%list
    /\ Js.prop item "type" = JStr "function_call_output"
    /\ Js.prop item "call_id" = Js.prop response "call_id"
    /\ (Js.prop response "status" = JStr "success" ->
        Js.prop item "output" = Js.stringify_value (Js.prop response "result")
        /\ Js.prop item "error" = JUndefined
        /\ o = Ok tt)
    /\ (Js.prop response "status" <> JStr "success" ->
        Js.prop item "error" = Js.prop response "message"
        /\ Js.prop item "output" = JUndefined
        /\ (is_Some (Js.to_string (Js.prop response "message")) ->
            o = Ok tt)).
Proof.
  intros Hr Htext Hopen.
  destruct (Js.strict_eq (Js.prop response "status") (JStr "success")) eqn:E.
  - apply strict_eq_str in E.
    eexists _, _, _.
    split; [exact (success_delivered w response text Hr Htext E Hopen)|].
    rewrite trace_logged, dc_sends_app. simpl.
    repeat split; try reflexivity; intros; contradiction.
  - assert (Js.prop response "status" <> JStr "success") as Hs.
    { intros H. apply (strict_eq_str _ "success") in H. congruence. }
    rewrite (failure_delivered w response text Hr Htext Hs Hopen).
    exists (JObj [("type", JStr "function_call_output");
                  ("call_id", Js.prop response "call_id");
                  ("error", Js.prop response "message")]).
    destruct (Js.to_string (Js.prop response "message")) as [t|];
      eexists _, _; (split; [reflexivity|]);
      rewrite trace_logged, dc_sends_app; simpl;
      (split; [reflexivity|]); (split; [reflexivity|]);
      (split; [reflexivity|]);
      (split; [intros; contradiction|]); intros _;
      (split; [reflexivity|]); (split; [reflexivity|]).
    + reflexivity.
    + intros [? H]. discriminate H.
Qed.

Lemma feedback_two_messages_witness :
  exists (item : jsval) (o : outcome unit) (w' : world),
    functionCallSocket_onmessage (Parsed Sample.success) Sample.live
    = (o, w')
    /\ dc_sends (trace w')
       = (dc_sends (trace Sample.live)
          ++ [Js.stringify_text
                (JObj [("type", JStr "conversation.item.create");
                       ("item", item)]);
              Js.stringify_text (JObj [("type", JStr "response.create")])])%list
    /\ Js.prop item "type" = JStr "function_call_output"
    /\ Js.prop item "call_id" = Js.prop Sample.success "call_id"
    /\ (Js.prop Sample.success "status" = JStr "success" ->
        Js.prop item "output"
        = Js.stringify_value (Js.prop Sample.success "result")
        /\ Js.prop item "error" = JUndefined
        /\ o = Ok tt)
    /\ (Js.prop Sample.success "status" <> JStr "success" ->
        Js.prop item "error" = Js.prop Sample.success "message"
        /\ Js.prop item "output" = JUndefined
        /\ (is_Some (Js.to_string (Js.prop Sample.success "message")) ->
            o = Ok tt)).
Proof.
  apply (feedback_two_messages Sample.live Sample.success "[object Object]");
    reflexivity.
Defined.

(** C9 (unrecognised status). A reply whose status is anything but the
    string "success" (absent, null, "failure" or any other value) takes the
    failure path: with the realtime channel open, and the reply (whose
    numbers are in the range of the model) converting to a string for the
    Backend log line, the handler sends the
    function_call_output item whose error is the reply's message, then
    response.create, and nothing else. When the message is absent the error
    is [undefined], and the item goes out without an error key. After the
    two messages the handler writes its failure log line and returns
    normally, unless the message does not convert to a string: then that
    line throws a TypeError, which leaves the handler. *)
Theorem other_status_takes_failure_path (w : world) (response : jsval)
    (text : string) :
  Js.nullish response = false ->
  Js.in_range response = true ->
  Js.to_string response = Some text ->
  dataChannel w = Some Open ->
  Js.prop response "status" <> JStr "success" ->
  let item :=
    JObj [("type", JStr "function_call_output");
          ("call_id", Js.prop response "call_id");
          ("error", Js.prop response "message")] in
  let first :=
    Js.stringify_text
      (JObj [("type", JStr "conversation.item.create"); ("item", item)]) in
  let sent :=
    [BackendLog text;
     DcSend first;
     DcSend (Js.stringify_text (JObj [("type", JStr "response.create")]))] in
  functionCallSocket_onmessage (Parsed response) w
  = match Js.to_string (Js.prop response "message") with
    | Some t => (Ok tt, logged (sent ++ [FunctionFailed t]) w)
    | None => (Throw TypeError, logged sent w)
    end
  /\ dc_sends (trace (snd (functionCallSocket_onmessage (Parsed response) w)))
     = (dc_sends (trace w)
        ++ [first;
            Js.stringify_text (JObj [("type", JStr "response.create")])])%list
  /\ (Js.prop response "message" = JUndefined ->
      first
      = Js.stringify_text
          (JObj [("type", JStr "conversation.item.create");
                 ("item", JObj [("type", JStr "function_call_output");
                                ("call_id", Js.prop response "call_id")])])).
Proof.
  intros Hr _ Htext Hopen Hs item first sent.
  pose proof (failure_delivered w response text Hr Htext Hs Hopen) as Hrun.
  split; [exact Hrun|]. split.
  - rewrite Hrun. simpl.
    destruct (Js.to_string (Js.prop response "message"));
      simpl; rewrite dc_sends_app; reflexivity.
  - intros Hm. unfold first, item. rewrite Hm. reflexivity.
Qed.

Lemma other_status_takes_failure_path_witness :
  let item :=
    JObj [("type", JStr "function_call_output");
          ("call_id", Js.prop Sample.bare "call_id");
          ("error", Js.prop Sample.bare "message")] in
  let first :=
    Js.stringify_text
      (JObj [("type", JStr "conversation.item.create"); ("item", item)]) in
  let sent :=
    [BackendLog "[object Object]";
     DcSend first;
     DcSend (Js.stringify_text (JObj [("type", JStr "response.create")]))] in
  functionCallSocket_onmessage (Parsed Sample.bare) Sample.live
  = match Js.to_string (Js.prop Sample.bare "message") with
    | Some t => (Ok tt, logged (sent ++ [FunctionFailed t]) Sample.live)
    | None => (Throw TypeError, logged sent Sample.live)
    end
  /\ dc_sends
       (trace (snd (functionCallSocket_onmessage (Parsed Sample.bare)
                      Sample.live)))
     = (dc_sends (trace Sample.live)
        ++ [first;
            Js.stringify_text (JObj [("type", JStr "response.create")])])%list
  /\ (Js.prop Sample.bare "message" = JUndefined ->
      first
      = Js.stringify_text
          (JObj [("type", JStr "conversation.item.create");
                 ("item", JObj [("type", JStr "function_call_output");
                                ("call_id", Js.prop Sample.bare "call_id")])])).
Proof.
  apply (other_status_takes_failure_path Sample.live Sample.bare
           "[object Object]").
  - reflexivity.
  - reflexivity.
  - reflexivity.
  - reflexivity.
  - simpl. discriminate.
Defined.

(** C7 (result after the realtime channel closed), evaluated where it
    fails. The data channel is closed when a success result arrives: the
    first [dataChannel.send] throws InvalidStateError and the exception
    leaves the handler, which reports no error of its own and sends
    nothing. *)
Example feedback_on_closed_channel_throws :
  let after :=
    functionCallSocket_onmessage (Parsed Sample.success)
      (Sample.pending Open Closed) in
  fst after = Throw InvalidStateError
  /\ dc_sends (trace (snd after)) = []
  /\ errors (trace (snd after)) = []
  /\ trace (snd after) = [BackendLog "[object Object]"].
Proof. vm_compute. repeat split; reflexivity. Qed.

(** C5, where it fails: a call pending at teardown is still in the table
    after [endSession]. *)
Lemma teardown_keeps_pending_call :
  pendingCalls (snd (endSession (Sample.pending Open Open))) !! 0
  = Some Sample.get_stock.
Proof. vm_compute. reflexivity. Qed.

(** C5, amended. [endSession] closes the realtime channel and the backend
    socket when they exist, so neither is open afterwards, and it leaves the
    pending-call table as it was. The data channel is closed for good when
    a peer connection exists, whose [close] shuts its channels at once; the
    socket starts its closing handshake. *)
Theorem teardown_closes_channels_keeps_table (w : world) :
  exists w',
    endSession w = (Ok tt, w')
    /\ dataChannel w'
       = match peerConnection w with
         | Some _ => (fun _ => Closed) <$> dataChannel w
         | None => close <$> dataChannel w
         end
    /\ functionCallSocket w' = close <$> functionCallSocket w
    /\ dataChannel w' <> Some Open
    /\ functionCallSocket w' <> Some Open
    /\ pendingCalls w' = pendingCalls w.
Proof.
  destruct w as [t [[| | |]|] [[| | |]|] [peer|] ls ui tr av];
    (eexists; split; [reflexivity|]); simpl;
    repeat split; discriminate.
Qed.

(** * Further properties of the handlers *)

(** ** The shape of a delivery *)

Lemma world_same (w : world) : logged [] (set_table (pendingCalls w) w) = w.
Proof.
  destruct w. unfold logged, set_table, with_trace, with_pendingCalls.
  simpl. now rewrite app_nil_r.
Qed.

Lemma log_event_shape (msg : jsval) (w : world) :
  logMessage_oai_events msg w = (Throw TypeError, w)
  \/ exists es,
       logMessage_oai_events msg w = (Ok tt, logged es w)
       /\ ws_sends es = [] /\ dc_sends es = [] /\ errors es = [].
Proof.
  unfold logMessage_oai_events.
  destruct (_ || _).
  - right. exists []. rewrite logged_nil. repeat split; reflexivity.
  - unfold_m. destruct (Js.to_string _).
    + right. eexists [_]. repeat split; reflexivity.
    + now left.
Qed.

Section SubHandlerShapes.

Variables (msg : jsval) (w : world).

Lemma added_shape :
  exists o es t',
    on_output_item_added msg w = (o, logged es (set_table t' w))
    /\ dc_sends es = []
    /\ table_effect (Parsed msg) w t' (ws_sends es).
Proof.
  unfold on_output_item_added, slot_of. unfold_m.
  destruct (Js.nullish msg) eqn:Hmsg;
    [exists (Throw TypeError), [], (pendingCalls w); rewrite world_same;
     repeat split; now constructor|].
  destruct (Js.nullish (Js.coalesce (Js.prop msg "item") msg)) eqn:Hitem;
    [exists (Throw TypeError), [], (pendingCalls w); rewrite world_same;
     repeat split; now constructor|].
  destruct (Js.strict_eq _ _);
    [|exists (Ok tt), [], (pendingCalls w); rewrite world_same;
      repeat split; now constructor].
  destruct (Js.coalesce (Js.prop msg "output_index") (JNum 0)) eqn:Hidx;
    try (exists Unmodelled, [], (pendingCalls w); rewrite world_same;
         repeat split; now constructor).
  assert (slot msg = Some n) as Hslot by (unfold slot; now rewrite Hidx).
  simpl.
  destruct (Js.to_string (Js.prop (Js.coalesce (Js.prop msg "item") msg)
                            "name")) as [a|];
    [destruct (Js.to_string (Js.prop (Js.coalesce (Js.prop msg "item") msg)
                               "call_id")) as [b|]|].
  - eexists (Ok tt), [CallStart a b], _. split; [reflexivity|].
    split; [reflexivity|].
    now eapply (Created _ _ _ _ msg n).
  - eexists (Throw TypeError), [], _. split; [now rewrite logged_nil|].
    split; [reflexivity|].
    now eapply (Created _ _ _ _ msg n).
  - eexists (Throw TypeError), [], _. split; [now rewrite logged_nil|].
    split; [reflexivity|].
    now eapply (Created _ _ _ _ msg n).
Qed.

Lemma delta_shape :
  exists o t',
    on_arguments_delta msg w = (o, logged [] (set_table t' w))
    /\ table_effect (Parsed msg) w t' [].
Proof.
  unfold on_arguments_delta, slot_of. unfold_m.
  destruct (Js.nullish msg) eqn:Hmsg;
    [exists (Throw TypeError), (pendingCalls w); rewrite world_same;
     split; now constructor|].
  destruct (Js.coalesce (Js.prop msg "output_index") (JNum 0)) eqn:Hidx;
    try (exists Unmodelled, (pendingCalls w); rewrite world_same;
         split; now constructor).
  destruct (pendingCalls w !! n) as [call|] eqn:Hk;
    [|exists (Ok tt), (pendingCalls w); rewrite world_same;
      split; now constructor].
  destruct (Js.to_string (Js.prop msg "delta")) as [t|];
    [|exists (Throw TypeError), (pendingCalls w); rewrite world_same;
      split; now constructor].
  eexists (Ok tt), _. split.
  - rewrite logged_nil. reflexivity.
  - eapply (Appended _ _ _ _ msg n call t); try reflexivity; try assumption.
    unfold slot. now rewrite Hidx.
Qed.

Lemma done_shape :
  exists o es t',
    on_output_item_done msg w = (o, logged es (set_table t' w))
    /\ dc_sends es = []
    /\ table_effect (Parsed msg) w t' (ws_sends es).
Proof.
  unfold on_output_item_done, slot_of, functionCallSocket_send. unfold_m.
  destruct (Js.nullish msg) eqn:Hmsg;
    [exists (Throw TypeError), [], (pendingCalls w); rewrite world_same;
     repeat split; now constructor|].
  destruct (negb _);
    [exists (Ok tt), [], (pendingCalls w); rewrite world_same;
     repeat split; now constructor|].
  destruct (Js.coalesce (Js.prop msg "output_index") (JNum 0)) eqn:Hidx;
    try (exists Unmodelled, [], (pendingCalls w); rewrite world_same;
         repeat split; now constructor).
  assert (slot msg = Some n) as Hslot by (unfold slot; now rewrite Hidx).
  destruct (pendingCalls w !! n) as [call|] eqn:Hk;
    [|exists (Ok tt), [], (pendingCalls w); rewrite world_same;
      repeat split; now constructor].
  destruct (Js.nullish (Js.prop msg "item"));
    [exists (Throw TypeError), [], (pendingCalls w); rewrite world_same;
     repeat split; now constructor|].
  destruct (Js.strict_eq _ _);
    [|exists (Ok tt), [], (pendingCalls w); rewrite world_same;
      repeat split; now constructor].
  destruct (functionCallSocket w) as [[| | |]|] eqn:Hsock.
  - exists (Throw InvalidStateError), [], (pendingCalls w).
    rewrite world_same. repeat split; now constructor.
  - simpl. destruct (Js.to_string (name call)) as [t|].
    + exists (Ok tt),
        ([WsSend (Js.stringify_text (call_object call))]
         ++ [CallExec t (arguments call)])%list,
        (delete n (pendingCalls w)).
      split; [|split].
      * rewrite <- logged_logged. reflexivity.
      * reflexivity.
      * now eapply (Dispatched _ _ _ _ msg n call).
    + exists (Throw TypeError),
        [WsSend (Js.stringify_text (call_object call))],
        (delete n (pendingCalls w)).
      split; [|split].
      * reflexivity.
      * reflexivity.
      * now eapply (Dispatched _ _ _ _ msg n call).
  - simpl. destruct (Js.to_string (name call)) as [t|].
    + eexists (Ok tt), [CallExec t (arguments call)], _.
      split; [reflexivity|]. split; [reflexivity|].
      eapply (Discarded _ _ _ _ msg n call); auto.
    + eexists (Throw TypeError), [], _.
      split; [now rewrite logged_nil|]. split; [reflexivity|].
      eapply (Discarded _ _ _ _ msg n call); auto.
  - simpl. destruct (Js.to_string (name call)) as [t|].
    + eexists (Ok tt), [CallExec t (arguments call)], _.
      split; [reflexivity|]. split; [reflexivity|].
      eapply (Discarded _ _ _ _ msg n call); auto.
    + eexists (Throw TypeError), [], _.
      split; [now rewrite logged_nil|]. split; [reflexivity|].
      eapply (Discarded _ _ _ _ msg n call); auto.
  - exists (Throw TypeError), [], (pendingCalls w).
    rewrite world_same. repeat split; now constructor.
Qed.

End SubHandlerShapes.

Lemma set_table_same (w : world) : set_table (pendingCalls w) w = w.
Proof. now destruct w. Qed.

Lemma table_effect_logged (data : message_data) (w : world)
    (es : list effect) (t' : gmap Z pending_call) (sent : list string) :
  table_effect data (logged es w) t' sent -> table_effect data w t' sent.
Proof.
  intros [? ?|msg k cid fname ? ? ? ?|msg k call suffix ? ? ? ? ?
          |msg k call ? ? ? ? ? ?|msg k call ? ? ? ? ? ?].
  - now apply Untouched.
  - now apply (Created _ _ _ _ msg k cid fname).
  - now apply (Appended _ _ _ _ msg k call suffix).
  - now apply (Dispatched _ _ _ _ msg k call).
  - now apply (Discarded _ _ _ _ msg k call).
Qed.

Lemma shape_after_log (data : message_data) (w : world)
    (es0 es : list effect) (t' : gmap Z pending_call) :
  ws_sends es0 = [] -> dc_sends es0 = [] -> dc_sends es = [] ->
  table_effect data (logged es0 w) t' (ws_sends es) ->
  exists es1,
    logged es (set_table t' (logged es0 w)) = logged es1 (set_table t' w)
    /\ dc_sends es1 = []
    /\ table_effect data w t' (ws_sends es1).
Proof.
  intros Hws Hdc Hdc' Ht. exists (es0 ++ es)%list. split; [|split].
  - rewrite <- logged_logged. reflexivity.
  - now rewrite dc_sends_app, Hdc, Hdc'.
  - rewrite ws_sends_app, Hws. simpl. now apply table_effect_logged in Ht.
Qed.

Lemma try_catch_shape (data : message_data) (w : world) (body : M unit) :
  (exists o es t',
      body w = (o, logged es (set_table t' w))
      /\ dc_sends es = []
      /\ table_effect data w t' (ws_sends es)) ->
  exists o es t',
    try_catch body report w = (o, logged es (set_table t' w))
    /\ (forall e, o <> Throw e)
    /\ dc_sends es = []
    /\ table_effect data w t' (ws_sends es).
Proof.
  intros (o & es & t' & Hb & Hdc & Ht). unfold try_catch. rewrite Hb.
  destruct o as [[]|e|].
  - exists (Ok tt), es, t'. repeat split; auto; discriminate.
  - exists (Ok tt), (es ++ [HandlerError e])%list, t'. split; [|split; [|split]].
    + unfold report, emit, update. rewrite <- logged_logged. reflexivity.
    + discriminate.
    + now rewrite dc_sends_app, Hdc.
    + rewrite ws_sends_app. simpl. now rewrite app_nil_r.
  - exists Unmodelled, es, t'. repeat split; auto; discriminate.
Qed.

(** Every delivery, summarised: the handler returns without raising, it
    writes nothing to the data channel, and what it does to the table and
    to the backend socket is one of the five [table_effect]s. *)
Lemma delivery_shape (data : message_data) (w : world) :
  exists o es t',
    dataChannel_onmessage data w = (o, logged es (set_table t' w))
    /\ (forall e, o <> Throw e)
    /\ dc_sends es = []
    /\ table_effect data w t' (ws_sends es).
Proof.
  unfold dataChannel_onmessage. apply try_catch_shape.
  destruct data as [|msg].
  - exists (Throw SyntaxError), [], (pendingCalls w). rewrite world_same.
    repeat split; now constructor.
  - unfold JSON_parse, mbind, M_bind, mret, M_ret.
    destruct (log_event_shape msg w) as [Hlog|(es0 & Hlog & Hws & Hdc & _)];
      rewrite Hlog.
    { exists (Throw TypeError), [], (pendingCalls w). rewrite world_same.
      repeat split; now constructor. }
    assert (forall o : outcome unit, exists es t',
               (o, logged es0 w) = (o, logged es (set_table t' w))
               /\ dc_sends es = []
               /\ table_effect (Parsed msg) w t' (ws_sends es)) as Hquiet.
    { intros o. exists es0, (pendingCalls w). rewrite set_table_same.
      repeat split; auto. rewrite Hws. now constructor. }
    assert (forall (o : outcome unit) e, exists es t',
               (o, logged [e] (logged es0 w))
               = (o, logged es (set_table t' w))
               /\ (dc_sends [e] = [] -> dc_sends es = [])
               /\ (ws_sends [e] = [] ->
                   table_effect (Parsed msg) w t' (ws_sends es))) as Hnote.
    { intros o e. exists (es0 ++ [e])%list, (pendingCalls w).
      rewrite set_table_same, logged_logged. repeat split.
      - intros H. now rewrite dc_sends_app, Hdc, H.
      - intros H. rewrite ws_sends_app, Hws, H. now constructor. }
    assert (forall r : outcome unit * world,
               (exists o es t',
                   r = (o, logged es (set_table t' (logged es0 w)))
                   /\ dc_sends es = []
                   /\ table_effect (Parsed msg) (logged es0 w) t'
                        (ws_sends es)) ->
               exists o es t',
                 r = (o, logged es (set_table t' w))
                 /\ dc_sends es = []
                 /\ table_effect (Parsed msg) w t' (ws_sends es)) as Hsub.
    { intros r (o & es & t' & -> & Hdc' & Ht).
      destruct (shape_after_log _ w es0 es t' Hws Hdc Hdc' Ht)
        as (es1 & -> & ? & ?).
      now exists o, es1, t'. }
    unfold get. destruct (Js.nullish msg) eqn:Hmsg.
    { exists (Throw TypeError). apply Hquiet. }
    unfold throw, mret, M_ret.
    destruct (event_kind_of (Js.prop msg "type")).
    + destruct (Js.truthy _).
      * exists (Ok tt).
        destruct (Hnote (Ok tt) (Bubble 0 (Js.prop msg "transcript") true))
          as (es & t' & He & Hd & Hw).
        exists es, t'. split; [exact He|]. split; [now apply Hd|now apply Hw].
      * exists (Ok tt). apply Hquiet.
    + destruct (Js.truthy _).
      * exists (Ok tt).
        match goal with
        | |- context [emit ?e] =>
            destruct (Hnote (Ok tt) e) as (es & t' & He & Hd & Hw)
        end.
        exists es, t'. split; [exact He|]. split; [now apply Hd|now apply Hw].
      * exists (Ok tt). apply Hquiet.
    + unfold agent_speak, mbind, M_bind, read. simpl.
      destruct (avatarLoaded w).
      * exists (Ok tt).
        destruct (Hnote (Ok tt) (AgentSpeak true))
          as (es & t' & He & Hd & Hw).
        exists es, t'. split; [exact He|]. split; [now apply Hd|now apply Hw].
      * exists (Throw TypeError). apply Hquiet.
    + unfold agent_speak, mbind, M_bind, read. simpl.
      destruct (avatarLoaded w).
      * exists (Ok tt).
        destruct (Hnote (Ok tt) (AgentSpeak false))
          as (es & t' & He & Hd & Hw).
        exists es, t'. split; [exact He|]. split; [now apply Hd|now apply Hw].
      * exists (Throw TypeError). apply Hquiet.
    + apply Hsub, added_shape.
    + apply Hsub.
      destruct (delta_shape msg (logged es0 w)) as (o & t' & He & Ht).
      exists o, [], t'. repeat split; auto.
    + apply Hsub, done_shape.
    + exists (Ok tt). apply Hquiet.
Qed.

(** ** [dataChannel.onmessage], for every message *)

(** X1. No exception leaves [dataChannel.onmessage]: whatever the message
    (malformed text, a JSON value that is not an object, an event the
    platform throws on), the try/catch turns the failure into a log entry. *)
Theorem data_channel_handler_never_throws (data : message_data) (w : world)
    (e : exn) :
  fst (dataChannel_onmessage data w) <> Throw e.
Proof.
  destruct (delivery_shape data w) as (o & es & t' & -> & Hno & _).
  apply Hno.
Qed.

(** X2. A message that is not JSON is reported as a SyntaxError and a JSON
    null as a TypeError (after its event log line, of type unknown); in both
    cases the message is dropped and nothing else changes. *)
Theorem undecodable_message_is_reported (w : world) :
  dataChannel_onmessage Malformed w
  = (Ok tt, logged [HandlerError SyntaxError] w)
  /\ dataChannel_onmessage (Parsed JNull) w
     = (Ok tt, logged [EventLog "unknown"; HandlerError TypeError] w).
Proof.
  split.
  - reflexivity.
  - unfold dataChannel_onmessage. unfold_m. simpl.
    rewrite <- (logged_logged [EventLog "unknown"] [HandlerError TypeError]).
    reflexivity.
Qed.

(** X3. Whatever is transmitted to the backend comes out of the table: an
    event inside the model transmits either nothing or exactly one frame,
    and that frame is the entry stored at the event's slot, serialised as
    stored, on an open socket; the entry leaves the table with it. *)
Theorem dispatch_only_from_table (data : message_data) (w : world) :
  fst (dataChannel_onmessage data w) <> Unmodelled ->
  let w' := snd (dataChannel_onmessage data w) in
  ws_sends (trace w') = ws_sends (trace w)
  \/ exists msg k call,
       data = Parsed msg /\ slot msg = Some k
       /\ pendingCalls w !! k = Some call
       /\ functionCallSocket w = Some Open
       /\ ws_sends (trace w')
          = (ws_sends (trace w)
             ++ [Js.stringify_text (call_object call)])%list
       /\ pendingCalls w' = delete k (pendingCalls w).
Proof.
  intros _.
  destruct (delivery_shape data w) as (o & es & t' & -> & _ & _ & Ht). simpl.
  rewrite ws_sends_app.
  destruct Ht as [? Hs|msg k cid fname ? ? ? Hs|msg k call suffix ? ? ? ? Hs
                  |msg k call ? ? ? ? ? Hs|msg k call ? ? ? ? ? Hs];
    rewrite Hs; try (left; apply app_nil_r).
  right. exists msg, k, call. repeat split; assumption.
Qed.

Lemma dispatch_only_from_table_witness :
  let w' :=
    snd (dataChannel_onmessage (Parsed (Sample.done "c1"))
           (Sample.pending Open Open)) in
  ws_sends (trace w') = ws_sends (trace (Sample.pending Open Open))
  \/ exists msg k call,
       Parsed (Sample.done "c1") = Parsed msg /\ slot msg = Some k
       /\ pendingCalls (Sample.pending Open Open) !! k = Some call
       /\ functionCallSocket (Sample.pending Open Open) = Some Open
       /\ ws_sends (trace w')
          = (ws_sends (trace (Sample.pending Open Open))
             ++ [Js.stringify_text (call_object call)])%list
       /\ pendingCalls w' = delete k (pendingCalls (Sample.pending Open Open)).
Proof.
  apply (dispatch_only_from_table (Parsed (Sample.done "c1"))
           (Sample.pending Open Open)).
  vm_compute. discriminate.
Defined.

(** X4. An event changes at most the entry at its own slot: every other
    slot of the table reads the same before and after. *)
Theorem event_touches_only_its_slot (msg : jsval) (w : world) (k j : Z) :
  slot msg = Some k ->
  j <> k ->
  pendingCalls (snd (dataChannel_onmessage (Parsed msg) w)) !! j
  = pendingCalls w !! j.
Proof.
  intros Hk Hj.
  destruct (delivery_shape (Parsed msg) w) as (o & es & t' & -> & _ & _ & Ht).
  simpl.
  destruct Ht as [-> ?|m k' cid fname Hm Hk' -> ?
                  |m k' call suffix Hm Hk' ? -> ?
                  |m k' call Hm Hk' ? -> ? ?|m k' call Hm Hk' ? -> ? ?];
    try reflexivity;
    inversion Hm; subst m; rewrite Hk in Hk'; inversion Hk'; subst k'.
  - now apply lookup_insert_ne.
  - now apply lookup_insert_ne.
  - now apply lookup_delete_ne.
  - now apply lookup_delete_ne.
Qed.

Lemma event_touches_only_its_slot_witness :
  pendingCalls
    (snd (dataChannel_onmessage (Parsed (Sample.done "c1"))
            (Sample.pending Open Open))) !! 7
  = pendingCalls (Sample.pending Open Open) !! 7.
Proof.
  apply (event_touches_only_its_slot (Sample.done "c1")
           (Sample.pending Open Open) 0 7).
  - reflexivity.
  - lia.
Defined.

(** X5. Between two events an entry is append-only: an entry that is in the
    table before and after an event either was replaced by a fresh entry
    with an empty argument string (a new call started at its slot), or
    kept its call id and name while its argument string grew at the end. *)
Theorem entries_are_append_only (data : message_data) (w : world) (j : Z)
    (call call' : pending_call) :
  pendingCalls w !! j = Some call ->
  pendingCalls (snd (dataChannel_onmessage data w)) !! j = Some call' ->
  arguments call' = EmptyString
  \/ (call_id call' = call_id call /\ name call' = name call
      /\ exists suffix, arguments call' = (arguments call ++ suffix)%string).
Proof.
  intros Hj.
  destruct (delivery_shape data w) as (o & es & t' & -> & _ & _ & Ht). simpl.
  assert (Some call = Some call' ->
          arguments call' = EmptyString
          \/ (call_id call' = call_id call /\ name call' = name call
              /\ exists suffix,
                   arguments call' = (arguments call ++ suffix)%string))
    as Hsame.
  { intros [= <-]. right. repeat split. exists EmptyString.
    now rewrite append_nil_r. }
  destruct Ht as [-> ?|m k cid fname ? ? -> ?|m k c suffix ? ? Hk -> ?
                  |m k c ? ? ? -> ? ?|m k c ? ? ? -> ? ?].
  - rewrite Hj. apply Hsame.
  - destruct (decide (k = j)) as [->|Hne].
    + rewrite lookup_insert_eq. intros [= <-]. now left.
    + rewrite lookup_insert_ne by assumption. rewrite Hj. apply Hsame.
  - destruct (decide (k = j)) as [->|Hne].
    + rewrite lookup_insert_eq. intros [= <-]. right. simpl.
      rewrite Hj in Hk. inversion Hk; subst c. repeat split. now exists suffix.
    + rewrite lookup_insert_ne by assumption. rewrite Hj. apply Hsame.
  - destruct (decide (k = j)) as [->|Hne].
    + rewrite lookup_delete_eq. discriminate.
    + rewrite lookup_delete_ne by assumption. rewrite Hj. apply Hsame.
  - destruct (decide (k = j)) as [->|Hne].
    + rewrite lookup_delete_eq. discriminate.
    + rewrite lookup_delete_ne by assumption. rewrite Hj. apply Hsame.
Qed.

Lemma entries_are_append_only_witness :
  arguments (PendingCall (JStr "c1") (JStr "get_stock") "{sym:ABC}, tail")
  = EmptyString
  \/ (call_id (PendingCall (JStr "c1") (JStr "get_stock") "{sym:ABC}, tail")
      = call_id Sample.get_stock
      /\ name (PendingCall (JStr "c1") (JStr "get_stock") "{sym:ABC}, tail")
         = name Sample.get_stock
      /\ exists suffix,
           arguments
             (PendingCall (JStr "c1") (JStr "get_stock") "{sym:ABC}, tail")
           = (arguments Sample.get_stock ++ suffix)%string).
Proof.
  apply (entries_are_append_only (Parsed (Sample.delta ", tail"))
           (Sample.pending Open Open) 0).
  - reflexivity.
  - vm_compute. reflexivity.
Defined.

(** X6. [dataChannel.onmessage] only reads the session: it never sends on
    the data channel and never changes a ready state, the stream or the UI
    state. *)
Theorem data_channel_handler_frame (data : message_data) (w : world) :
  let w' := snd (dataChannel_onmessage data w) in
  dc_sends (trace w') = dc_sends (trace w)
  /\ dataChannel w' = dataChannel w
  /\ functionCallSocket w' = functionCallSocket w
  /\ peerConnection w' = peerConnection w
  /\ localStream w' = localStream w
  /\ currentUIState w' = currentUIState w.
Proof.
  destruct (delivery_shape data w) as (o & es & t' & -> & _ & Hdc & _). simpl.
  rewrite dc_sends_app, Hdc, app_nil_r. now repeat split.
Qed.

(** X7. An argument fragment is appended as text when it converts to
    text. For a delta whose numbers are safe integers: if ToString of the
    delta gives the text [t], the entry keeps its call id and name and its
    argument string grows by [t]; in particular an event without a delta
    field appends the nine characters of the word undefined. If ToString
    throws (an object with an own property toString, or an array holding
    one), nothing is appended: the state is unchanged but for the TypeError
    that the catch block reports. *)
Theorem fragment_is_appended_as_text (w : world) (msg : jsval) (k : Z)
    (call : pending_call) :
  Js.prop msg "type" = JStr "response.function_call_arguments.delta" ->
  slot msg = Some k ->
  pendingCalls w !! k = Some call ->
  Js.in_range (Js.prop msg "delta") = true ->
  dataChannel_onmessage (Parsed msg) w
  = (Ok tt,
     match Js.to_string (Js.prop msg "delta") with
     | Some t =>
         with_pendingCalls
           (insert k (PendingCall (call_id call) (name call)
                        (arguments call ++ t))) w
     | None => logged [HandlerError TypeError] w
     end)
  /\ (Js.prop msg "delta" = JUndefined ->
      pendingCalls (snd (dataChannel_onmessage (Parsed msg) w)) !! k
      = Some (PendingCall (call_id call) (name call)
                (arguments call ++ "undefined"))).
Proof.
  intros Ht Hs Hk _.
  assert (dataChannel_onmessage (Parsed msg) w
          = (Ok tt,
             match Js.to_string (Js.prop msg "delta") with
             | Some t =>
                 with_pendingCalls
                   (insert k (PendingCall (call_id call) (name call)
                                (arguments call ++ t))) w
             | None => logged [HandlerError TypeError] w
             end)) as Hrun.
  { rewrite (route_delta w msg Ht). unfold try_catch.
    rewrite (delta_tracked w msg k (prop_str_defined _ _ _ Ht) Hs call Hk).
    now destruct (Js.to_string (Js.prop msg "delta")). }
  split; [exact Hrun|].
  intros Hd. rewrite Hrun, Hd. simpl. apply lookup_insert_eq.
Qed.

Lemma fragment_is_appended_as_text_witness :
  dataChannel_onmessage
    (Parsed (JObj [("type", JStr "response.function_call_arguments.delta")]))
    (Sample.pending Open Open)
  = (Ok tt,
     match
       Js.to_string
         (Js.prop
            (JObj [("type", JStr "response.function_call_arguments.delta")])
            "delta")
     with
     | Some t =>
         with_pendingCalls
           (insert 0
              (PendingCall (call_id Sample.get_stock) (name Sample.get_stock)
                 (arguments Sample.get_stock ++ t)))
           (Sample.pending Open Open)
     | None => logged [HandlerError TypeError] (Sample.pending Open Open)
     end)
  /\ (Js.prop
        (JObj [("type", JStr "response.function_call_arguments.delta")])
        "delta" = JUndefined ->
      pendingCalls
        (snd (dataChannel_onmessage
                (Parsed
                   (JObj [("type",
                           JStr "response.function_call_arguments.delta")]))
                (Sample.pending Open Open))) !! 0
      = Some (PendingCall (call_id Sample.get_stock) (name Sample.get_stock)
                (arguments Sample.get_stock ++ "undefined"))).
Proof.
  apply (fragment_is_appended_as_text (Sample.pending Open Open)
           (JObj [("type", JStr "response.function_call_arguments.delta")])
           0 Sample.get_stock); reflexivity.
Defined.

(** A fragment that is an object with an own property toString: nothing
    is appended, and the TypeError is reported. *)
Example unprintable_fragment_is_dropped :
  dataChannel_onmessage
    (Parsed (JObj [("type", JStr "response.function_call_arguments.delta");
                   ("delta", JObj [("toString", JNum 1)])]))
    (Sample.pending Open Open)
  = (Ok tt, logged [HandlerError TypeError] (Sample.pending Open Open)).
Proof. vm_compute. reflexivity. Qed.

(** X8. Events that are not call events (transcription, response.done,
    audio start and stop, and every unrecognised type) never touch the
    table and never transmit to the backend. *)
Theorem other_events_keep_table (msg : jsval) (w : world) :
  event_kind_of (Js.prop msg "type") <> OutputItemAdded ->
  event_kind_of (Js.prop msg "type") <> ArgumentsDelta ->
  event_kind_of (Js.prop msg "type") <> OutputItemDone ->
  let w' := snd (dataChannel_onmessage (Parsed msg) w) in
  pendingCalls w' = pendingCalls w
  /\ ws_sends (trace w') = ws_sends (trace w).
Proof.
  intros Ha Hd Hf.
  unfold dataChannel_onmessage, try_catch, JSON_parse, mbind, M_bind,
    mret, M_ret.
  destruct (log_event_shape msg w) as [->|(es0 & -> & Hws & _)].
  { simpl. split; [reflexivity|]. rewrite ws_sends_app. simpl.
    apply app_nil_r. }
  assert (ws_sends (trace (logged es0 w)) = ws_sends (trace w)) as Hq.
  { simpl. now rewrite ws_sends_app, Hws, app_nil_r. }
  assert (forall e, ws_sends [e] = [] ->
                    ws_sends (trace (logged [e] (logged es0 w)))
                    = ws_sends (trace w)) as Hq1.
  { intros e He. simpl. now rewrite !ws_sends_app, Hws, He, !app_nil_r. }
  unfold get. destruct (Js.nullish msg).
  { simpl. split; [reflexivity|]. rewrite ws_sends_app. simpl.
    rewrite app_nil_r. exact Hq. }
  unfold mret, M_ret, agent_speak, mbind, M_bind, read, throw.
  destruct (event_kind_of (Js.prop msg "type")); try contradiction;
    simpl;
    repeat match goal with
           | |- context [if ?b then _ else _] => destruct b
           end;
    (split; [reflexivity|]); first [exact Hq | now apply Hq1].
Qed.

Lemma other_events_keep_table_witness :
  let w' :=
    snd (dataChannel_onmessage
           (Parsed (JObj [("type", JStr "response.done")]))
           (Sample.pending Open Open)) in
  pendingCalls w' = pendingCalls (Sample.pending Open Open)
  /\ ws_sends (trace w') = ws_sends (trace (Sample.pending Open Open)).
Proof.
  apply (other_events_keep_table (JObj [("type", JStr "response.done")])
           (Sample.pending Open Open)); simpl; discriminate.
Defined.

(** X9. No double dispatch when [send] returns: after a finalize that
    passes the gate on a socket that is open, closing or closed, the entry
    is gone, and the same finalize event delivered again only writes its
    event log line. *)
Theorem second_finalize_finds_nothing (w : world) (finish : jsval) (k : Z)
    (cid : jsval) (call : pending_call) (s : ready_state) :
  is_call_done finish k cid ->
  pendingCalls w !! k = Some call ->
  Js.strict_eq (call_id call) cid = true ->
  functionCallSocket w = Some s ->
  s <> Connecting ->
  let w1 := snd (dataChannel_onmessage (Parsed finish) w) in
  pendingCalls w1 !! k = None
  /\ dataChannel_onmessage (Parsed finish) w1
     = (Ok tt, logged [EventLog "response.output_item.done"] w1).
Proof.
  intros Hdone Hk Hg Hsock Hs.
  destruct (finalize_twice_when_send_returns w finish k cid call s
              Hdone Hk Hg Hsock Hs) as (w1 & -> & Ht & Hsecond).
  simpl. split; [|exact Hsecond].
  rewrite Ht. apply lookup_delete_eq.
Qed.

Lemma second_finalize_finds_nothing_witness :
  let w1 :=
    snd (dataChannel_onmessage (Parsed (Sample.done "c1"))
           (Sample.pending Open Open)) in
  pendingCalls w1 !! 0 = None
  /\ dataChannel_onmessage (Parsed (Sample.done "c1")) w1
     = (Ok tt, logged [EventLog "response.output_item.done"] w1).
Proof.
  apply (second_finalize_finds_nothing (Sample.pending Open Open)
           (Sample.done "c1") 0 (JStr "c1") Sample.get_stock Open).
  - repeat split; reflexivity.
  - reflexivity.
  - reflexivity.
  - reflexivity.
  - discriminate.
Defined.

(** ** [functionCallSocket.onmessage], for every message *)

Lemma backend_shape (data : message_data) (w : world) :
  exists o es,
    functionCallSocket_onmessage data w = (o, logged es w)
    /\ ws_sends es = []
    /\ ((dataChannel w = Some Open
         /\ (exists m,
               dc_sends es
               = [m; Js.stringify_text
                       (JObj [("type", JStr "response.create")])])
         /\ (o = Ok tt
             \/ (o = Throw TypeError
                 /\ exists response,
                      data = Parsed response
                      /\ Js.prop response "status" <> JStr "success"
                      /\ Js.to_string (Js.prop response "message") = None)))
        \/ ((exists e, o = Throw e) /\ dc_sends es = [])).
Proof.
  destruct data as [|response].
  - exists (Throw SyntaxError), []. rewrite logged_nil.
    repeat split. right. eauto.
  - destruct (Js.to_string response) as [text|] eqn:Htext.
    2:{ exists (Throw TypeError), [].
        rewrite (feedback_of_unprintable_reply w response Htext), logged_nil.
        repeat split. right. eauto. }
    destruct (Js.nullish response) eqn:Hr.
    { exists (Throw TypeError), [BackendLog text].
      unfold functionCallSocket_onmessage. unfold_m. rewrite Htext, Hr.
      repeat split. right. eauto. }
    destruct (dataChannel w) as [s|] eqn:Hdc.
    + assert (s = Open \/ s <> Open) as [->|Hs]
        by (destruct s; auto; right; discriminate).
      * destruct (Js.strict_eq (Js.prop response "status") (JStr "success"))
          eqn:E.
        -- apply strict_eq_str in E.
           rewrite (success_delivered w response text Hr Htext E Hdc).
           eexists (Ok tt), _. split; [reflexivity|]. split; [reflexivity|].
           left. split; [reflexivity|]. split; [|now left].
           eexists. reflexivity.
        -- assert (Js.prop response "status" <> JStr "success") as Hne.
           { intros H. apply (strict_eq_str _ "success") in H. congruence. }
           rewrite (failure_delivered w response text Hr Htext Hne Hdc).
           destruct (Js.to_string (Js.prop response "message")) as [t|]
             eqn:Hm; simpl.
           ++ eexists (Ok tt), _. split; [reflexivity|].
              split; [reflexivity|].
              left. split; [reflexivity|]. split; [|now left].
              eexists. reflexivity.
           ++ eexists (Throw TypeError), _. split; [reflexivity|].
              split; [reflexivity|].
              left. split; [reflexivity|]. split.
              ** eexists. reflexivity.
              ** right. split; [reflexivity|]. now exists response.
      * rewrite (feedback_on_unready_channel w response text Hr Htext s Hdc
                   Hs).
        eexists _, _. split; [reflexivity|]. split; [reflexivity|].
        right. eauto.
    + exists (Throw TypeError), [BackendLog text].
      unfold functionCallSocket_onmessage, dataChannel_send. unfold_m.
      rewrite Htext, Hr. destruct w. simpl in *. rewrite Hdc.
      destruct (Js.strict_eq _ _); repeat split; right; eauto.
Qed.

(** X10. An item never goes out without its continuation: a backend
    message makes the emitter send either nothing, and then it throws, or
    exactly one item followed by response.create on an open data channel.
    After the pair it returns normally, except on the failure path when the
    reply's message does not convert to a string: then its last log line
    throws a TypeError. The table and the backend socket are not touched
    in any case. *)
Theorem feedback_is_all_or_nothing (data : message_data) (w : world) :
  let o := fst (functionCallSocket_onmessage data w) in
  let w' := snd (functionCallSocket_onmessage data w) in
  pendingCalls w' = pendingCalls w
  /\ ws_sends (trace w') = ws_sends (trace w)
  /\ ((dataChannel w = Some Open
       /\ (exists m,
             dc_sends (trace w')
             = (dc_sends (trace w)
                ++ [m; Js.stringify_text
                         (JObj [("type", JStr "response.create")])])%list)
       /\ (o = Ok tt
           \/ (o = Throw TypeError
               /\ exists response,
                    data = Parsed response
                    /\ Js.prop response "status" <> JStr "success"
                    /\ Js.to_string (Js.prop response "message") = None)))
      \/ ((exists e, o = Throw e)
          /\ dc_sends (trace w') = dc_sends (trace w))).
Proof.
  destruct (backend_shape data w) as (o & es & -> & Hws & H). simpl.
  rewrite ws_sends_app, Hws, app_nil_r, dc_sends_app.
  repeat split.
  destruct H as [(Hopen & (m & ->) & Ho)|(He & ->)].
  - left. repeat split; eauto.
  - right. split; [exact He|apply app_nil_r].
Qed.

(** Both messages are out when the failure log line throws on a message
    with an own property toString. *)
Example failure_log_throws_after_the_pair :
  let after :=
    functionCallSocket_onmessage
      (Parsed (JObj [("status", JStr "failure"); ("call_id", JStr "c1");
                     ("message", JObj [("toString", JNull)])]))
      Sample.live in
  fst after = Throw TypeError
  /\ length (dc_sends (trace (snd after))) = 2%nat.
Proof. vm_compute. split; reflexivity. Qed.

(** ** Teardown *)

(** X11. [endSession] may run twice (a disconnected state followed by a
    failed one): the second run finds the tracks stopped and the channels
    closing or closed, and only adds its log line. *)
Theorem endSession_twice (w : world) :
  endSession (snd (endSession w))
  = (Ok tt, logged [SessionEnded] (snd (endSession w))).
Proof.
  destruct w as [t [[| | |]|] [[| | |]|] [[| | |]|] [[|]|] ui tr av];
    reflexivity.
Qed.

Lemma endSession_leaves_nothing_open (w : world) :
  functionCallSocket (snd (endSession w)) <> Some Open
  /\ dataChannel (snd (endSession w)) <> Some Open
  /\ trace (snd (endSession w)) = (trace w ++ [SessionEnded])%list.
Proof.
  destruct w as [t [[| | |]|] [[| | |]|] [[| | |]|] ls ui tr av];
    repeat split; discriminate.
Qed.

(** X12. Nothing is transmitted after teardown: once [endSession] has run,
    no data-channel event makes the handler send to the backend (a late
    finalize finds the socket closing or closed, or never assigned), and
    no backend message makes the emitter send on the data channel. *)
Theorem nothing_is_sent_after_teardown (w : world) (data : message_data) :
  ws_sends (trace (snd (dataChannel_onmessage data (snd (endSession w)))))
  = ws_sends (trace w)
  /\ dc_sends
       (trace (snd (functionCallSocket_onmessage data (snd (endSession w)))))
     = dc_sends (trace w).
Proof.
  split.
  - destruct (delivery_shape data (snd (endSession w)))
      as (o & es & t' & -> & _ & _ & Ht).
    assert (ws_sends es = []) as Hes.
    { destruct Ht as [? Hs|? ? ? ? ? ? ? Hs|? ? ? ? ? ? ? ? Hs
                      |? ? ? ? ? ? ? Hopen Hs|? ? ? ? ? ? ? ? Hs];
        try exact Hs.
      now destruct (endSession_leaves_nothing_open w) as [Hn _]. }
    destruct (endSession_leaves_nothing_open w) as (_ & _ & Htr).
    cbn [snd]. rewrite trace_logged.
    change (trace (set_table t' (snd (endSession w))))
      with (trace (snd (endSession w))).
    rewrite Htr, !ws_sends_app, Hes. simpl.
    now rewrite !app_nil_r.
  - destruct (backend_shape data (snd (endSession w)))
      as (o & es & -> & _ & H).
    assert (dc_sends es = []) as Hes.
    { destruct H as [(Hopen & _)|(_ & Hs)]; [|exact Hs].
      now destruct (endSession_leaves_nothing_open w) as (_ & Hn & _). }
    destruct (endSession_leaves_nothing_open w) as (_ & _ & Htr).
    cbn [snd]. rewrite trace_logged, Htr, !dc_sends_app, Hes. simpl.
    now rewrite !app_nil_r.
Qed.

(** ** The relay and the UI state *)

Section UiBlind.

Context {A B : Type}.

Lemma blind_ret (a : A) : ui_blind (mret a).
Proof. intros w ui. reflexivity. Qed.

Lemma blind_throw (e : exn) : ui_blind (@throw A e).
Proof. intros w ui. reflexivity. Qed.

Lemma blind_unmodelled : ui_blind (@unmodelled A).
Proof. intros w ui. reflexivity. Qed.

Lemma blind_bind (m : M A) (f : A -> M B) :
  ui_blind m -> (forall a, ui_blind (f a)) -> ui_blind (m ≫= f).
Proof.
  intros Hm Hf w ui. unfold mbind, M_bind. rewrite Hm.
  destruct (m w) as [[a|e|] w1]; simpl; try reflexivity. apply Hf.
Qed.

(** Reading the state is harmless when what follows does not depend on
    the UI state of the state that was read. *)
Lemma blind_read (f : world -> M B) :
  (forall w ui, f (with_ui ui w) = f w) ->
  (forall w, ui_blind (f w)) ->
  ui_blind (read ≫= f).
Proof.
  intros Hsame Hf w ui. unfold mbind, M_bind, read. rewrite Hsame. apply Hf.
Qed.

Lemma blind_try (body : M A) (handler : exn -> M A) :
  ui_blind body -> (forall e, ui_blind (handler e)) ->
  ui_blind (try_catch body handler).
Proof.
  intros Hb Hh w ui. unfold try_catch. rewrite Hb.
  destruct (body w) as [[a|e|] w1]; simpl; try reflexivity. apply Hh.
Qed.

End UiBlind.

Lemma blind_emit (e : effect) : ui_blind (emit e).
Proof. intros w ui. reflexivity. Qed.

Lemma blind_table (f : gmap Z pending_call -> gmap Z pending_call) :
  ui_blind (update (with_pendingCalls f)).
Proof. intros w ui. reflexivity. Qed.

Lemma blind_get (v : jsval) (k : string) : ui_blind (get v k).
Proof. unfold get. destruct (Js.nullish v); intros w ui; reflexivity. Qed.

Lemma blind_text_of (v : jsval) : ui_blind (text_of v).
Proof.
  unfold text_of. destruct (Js.to_string v); intros w ui; reflexivity.
Qed.

Lemma blind_agent_speak (speaking : bool) : ui_blind (agent_speak speaking).
Proof.
  intros w ui. unfold agent_speak. unfold_m. simpl.
  destruct (avatarLoaded w); reflexivity.
Qed.

Ltac blind_step :=
  lazymatch goal with
  | |- ui_blind (text_of _) => apply blind_text_of
  | |- ui_blind (agent_speak _) => apply blind_agent_speak
  | |- ui_blind (mret _) => apply blind_ret
  | |- ui_blind (throw _) => apply blind_throw
  | |- ui_blind unmodelled => apply blind_unmodelled
  | |- ui_blind (emit _) => apply blind_emit
  | |- ui_blind (update (with_pendingCalls _)) => apply blind_table
  | |- ui_blind (get _ _) => apply blind_get
  | |- ui_blind (mbind _ read) =>
      apply blind_read; [intros; reflexivity | intros]
  | |- ui_blind (mbind _ _) => apply blind_bind; [|intros]
  | |- ui_blind (try_catch _ _) => apply blind_try; [|intros]
  | |- ui_blind (if ?b then _ else _) => destruct b
  | |- ui_blind (match ?x with _ => _ end) => destruct x
  end.

Ltac blind := repeat blind_step.

Lemma blind_data_channel (data : message_data) :
  ui_blind (dataChannel_onmessage data).
Proof.
  unfold dataChannel_onmessage, on_output_item_added, on_arguments_delta,
    on_output_item_done, slot_of, functionCallSocket_send, report,
    logMessage_oai_events, JSON_parse.
  blind.
Qed.

Lemma blind_backend (data : message_data) :
  ui_blind (functionCallSocket_onmessage data).
Proof.
  unfold functionCallSocket_onmessage, dataChannel_send, JSON_parse.
  blind.
Qed.

(** X13. The relay never looks at the UI state: both handlers do to a
    session in any UI state (active, muted, or back to ready after a
    teardown) exactly what they do to it in any other. *)
Theorem relay_ignores_ui_state (data : message_data) (w : world)
    (ui : string) :
  dataChannel_onmessage data (with_ui ui w)
  = (fst (dataChannel_onmessage data w),
     with_ui ui (snd (dataChannel_onmessage data w)))
  /\ functionCallSocket_onmessage data (with_ui ui w)
     = (fst (functionCallSocket_onmessage data w),
        with_ui ui (snd (functionCallSocket_onmessage data w))).
Proof. split; [apply blind_data_channel | apply blind_backend]. Qed.

(** * The page around the relay *)

(** X14. Mute and unmute are a round trip: from an active session whose
    document is as [updateUI("active")] leaves it and whose tracks are
    enabled, two clicks on the primary button give back the same page. *)
Theorem mute_round_trip (env : Ui.session_env) (p : Ui.page) :
  currentUIState (Ui.session p) = "active" ->
  Ui.view p = Ui.render "active" (Ui.view p) ->
  Ui.audio_enabled p = true ->
  Ui.onclick env (Ui.onclick env p) = p.
Proof.
  destruct p as [[t dc sock peer ls ui tr] [oh ot sh bd bh bdis brec bp st]
                   en n ns].
  simpl. intros -> Hview ->. injection Hview. intros. subst.
  unfold Ui.onclick. simpl.
  unfold Ui.set_tracks, Ui.updateUI. simpl. destruct ls; reflexivity.
Qed.

Lemma mute_round_trip_witness :
  let p :=
    Ui.updateUI "active"
      (Ui.Page Sample.live
         (Ui.Dom false EmptyString true "flex" EmptyString true false
                 Ui.Elsewhere EmptyString)
         true 1 []) in
  Ui.onclick (Ui.SessionEnv Ui.Done Ui.MicGranted Ui.Done Ui.Answered Ui.Done)
    (Ui.onclick
       (Ui.SessionEnv Ui.Done Ui.MicGranted Ui.Done Ui.Answered Ui.Done) p)
  = p.
Proof.
  apply mute_round_trip; reflexivity.
Defined.

(** X15. Muting does not pause the relay: a click in the active or the
    muted state changes nothing of the relay session but its UI state; the
    table, both channels, the stream and the trace stay as they are. *)
Theorem mute_keeps_relay (env : Ui.session_env) (p : Ui.page) :
  currentUIState (Ui.session p) = "active"
  \/ currentUIState (Ui.session p) = "muted" ->
  exists ui,
    Ui.session (Ui.onclick env p) = with_ui ui (Ui.session p)
    /\ (ui = "active" \/ ui = "muted")
    /\ ui <> currentUIState (Ui.session p).
Proof.
  destruct p as [[t dc sock peer ls ui tr] d en n ns]. simpl.
  intros [-> | ->]; unfold Ui.onclick, Ui.set_tracks; simpl;
    destruct ls; simpl.
  - exists "muted". repeat split; auto; discriminate.
  - exists "muted". repeat split; auto; discriminate.
  - exists "active". repeat split; auto; discriminate.
  - exists "active". repeat split; auto; discriminate.
Qed.

Lemma mute_keeps_relay_witness :
  exists ui,
    Ui.session
      (Ui.onclick
         (Ui.SessionEnv Ui.Done Ui.MicGranted Ui.Done Ui.Answered Ui.Done)
         (Ui.Page (Sample.pending Open Open)
            (Ui.Dom true EmptyString true "flex" EmptyString false true
                    Ui.InMain EmptyString) true 1 []))
    = with_ui ui (Sample.pending Open Open)
    /\ (ui = "active" \/ ui = "muted")
    /\ ui <> currentUIState (Sample.pending Open Open).
Proof.
  apply (mute_keeps_relay
           (Ui.SessionEnv Ui.Done Ui.MicGranted Ui.Done Ui.Answered Ui.Done)
           (Ui.Page (Sample.pending Open Open)
              (Ui.Dom true EmptyString true "flex" EmptyString false true
                      Ui.InMain EmptyString) true 1 [])).
  left. reflexivity.
Defined.

(** X16. A session that is connecting cannot be started twice: after a
    click in the ready state for which every platform step succeeds, the UI
    state is connecting, the button is disabled, and a further click, were
    it delivered, changes nothing. *)
Theorem no_second_session_while_connecting (env env' : Ui.session_env)
    (p : Ui.page) :
  currentUIState (Ui.session p) = "ready" ->
  env = Ui.SessionEnv Ui.Done Ui.MicGranted Ui.Done Ui.Answered Ui.Done ->
  let p' := Ui.onclick env p in
  currentUIState (Ui.session p') = "connecting"
  /\ Ui.button_disabled (Ui.view p') = true
  /\ Ui.onclick env' p' = p'.
Proof.
  destruct p as [[t dc sock peer ls ui tr] d en n ns]. simpl.
  intros -> ->. repeat split.
Qed.

Lemma no_second_session_while_connecting_witness :
  let env := Ui.SessionEnv Ui.Done Ui.MicGranted Ui.Done Ui.Answered Ui.Done in
  let p :=
    Ui.updateUI "ready"
      (Ui.Page (World ∅ None None None None EmptyString [] true)
         (Ui.Dom false EmptyString true "none" EmptyString false false
                 Ui.Elsewhere EmptyString) true 0 []) in
  let p' := Ui.onclick env p in
  currentUIState (Ui.session p') = "connecting"
  /\ Ui.button_disabled (Ui.view p') = true
  /\ Ui.onclick env p' = p'.
Proof.
  apply no_second_session_while_connecting; reflexivity.
Defined.

(** X17. Clicks keep the microphone in step with the UI: if the tracks are
    enabled exactly when the UI says active, and a stream exists, the same
    holds after a click, whatever the state and whatever the platform
    answers to a session start. *)
Theorem click_keeps_microphone_in_step (env : Ui.session_env) (p : Ui.page) :
  Ui.in_step p ->
  localStream (Ui.session p) <> None ->
  Ui.in_step (Ui.onclick env p).
Proof.
  destruct p as [[t dc sock peer [l|] ui tr] d en n ns];
    [|intros _ H; now contradiction H].
  intros [Ha Hm] _. simpl in *. unfold Ui.onclick. simpl.
  destruct (String.eqb ui "ready") eqn:Er.
  - unfold Ui.startSession, Ui.connection_failed.
    destruct env as [[|?] [| |] [|?] [?|?|] [|?]]; simpl;
      split; discriminate.
  - destruct (String.eqb ui "active") eqn:Ea;
      [split; simpl; [discriminate|reflexivity]|].
    destruct (String.eqb ui "muted") eqn:Em;
      [split; simpl; [reflexivity|discriminate]|].
    split; assumption.
Qed.

Lemma click_keeps_microphone_in_step_witness :
  Ui.in_step
    (Ui.onclick
       (Ui.SessionEnv Ui.Done Ui.MicGranted Ui.Done Ui.Answered Ui.Done)
       (Ui.Page (Sample.pending Open Open)
          (Ui.Dom true EmptyString true "flex" EmptyString false true
                  Ui.InMain EmptyString) true 1 [])).
Proof.
  apply click_keeps_microphone_in_step.
  - split; simpl; [reflexivity | discriminate].
  - simpl. discriminate.
Defined.

(** X18. The ready rendering does not clear the recording class: when a
    session that was active is torn down, the start button is back in the
    popup with its start label, enabled, and still carries the class
    recording. *)
Theorem ready_keeps_recording_class (p : Ui.page) :
  let p' := Ui.endSession (Ui.updateUI "active" p) in
  currentUIState (Ui.session p') = "ready"
  /\ Ui.button_parent (Ui.view p') = Ui.InPopup
  /\ Ui.button_disabled (Ui.view p') = false
  /\ Ui.button_recording (Ui.view p') = true.
Proof. repeat split. Qed.

(** ** Starting a session *)

(** X19. When the microphone is denied or unavailable, [startSession]
    returns to the ready state without tearing anything down: the peer
    connection it has just created is left as created, no data channel and
    no socket are created, [endSession] does not run, and the audio element
    it appended stays in the document. *)
Theorem microphone_failure_skips_teardown (env : Ui.session_env)
    (p : Ui.page) :
  Ui.peer env = Ui.Done ->
  Ui.mic env <> Ui.MicGranted ->
  let p' := Ui.startSession env p in
  currentUIState (Ui.session p') = "ready"
  /\ Ui.view p' = Ui.render "ready" (Ui.render "connecting" (Ui.view p))
  /\ peerConnection (Ui.session p') = Some Connecting
  /\ dataChannel (Ui.session p') = dataChannel (Ui.session p)
  /\ functionCallSocket (Ui.session p') = functionCallSocket (Ui.session p)
  /\ localStream (Ui.session p') = localStream (Ui.session p)
  /\ trace (Ui.session p') = trace (Ui.session p)
  /\ Ui.audio_elements p' = S (Ui.audio_elements p)
  /\ exists text rest, Ui.notes p' = (Ui.notes p ++ Ui.Alert text :: rest)%list.
Proof.
  intros Hpeer Hmic. unfold Ui.startSession. rewrite Hpeer.
  destruct (Ui.mic env); try contradiction; simpl; repeat split; eauto.
Qed.

Lemma microphone_failure_skips_teardown_witness :
  let env :=
    Ui.SessionEnv Ui.Done Ui.MicDenied Ui.Done Ui.Answered Ui.Done in
  let p :=
    Ui.Page (World ∅ None None None None "ready" [] true)
      (Ui.Dom true EmptyString false "flex" EmptyString false false
              Ui.InPopup EmptyString) true 0 [] in
  let p' := Ui.startSession env p in
  currentUIState (Ui.session p') = "ready"
  /\ Ui.view p' = Ui.render "ready" (Ui.render "connecting" (Ui.view p))
  /\ peerConnection (Ui.session p') = Some Connecting
  /\ dataChannel (Ui.session p') = dataChannel (Ui.session p)
  /\ functionCallSocket (Ui.session p') = functionCallSocket (Ui.session p)
  /\ localStream (Ui.session p') = localStream (Ui.session p)
  /\ trace (Ui.session p') = trace (Ui.session p)
  /\ Ui.audio_elements p' = S (Ui.audio_elements p)
  /\ exists text rest, Ui.notes p' = (Ui.notes p ++ Ui.Alert text :: rest)%list.
Proof.
  apply microphone_failure_skips_teardown.
  - reflexivity.
  - simpl. discriminate.
Defined.



(** X21. The table outlives the session: neither [endSession] nor
    [startSession], whatever the platform answers, changes [pendingCalls],
    so a call that is pending when a session ends is still in the table of
    the session started next. *)
Theorem table_survives_restart (env : Ui.session_env) (p : Ui.page) :
  pendingCalls (Ui.session (Ui.startSession env (Ui.endSession p)))
  = pendingCalls (Ui.session p).
Proof.
  unfold Ui.startSession, Ui.connection_failed.
  destruct p as [[t dc sock [pc|] ls ui tr av] v a n notes];
    destruct env as [[|?] [| |] [|?] [?|?|] [|?]]; reflexivity.
Qed.

(** ** The time of a chat bubble *)

(** X22. The time label of a bubble is the hour as it is, a colon, and the
    minute on exactly two digits, from which the minute can be read back:
    five past nine is 9:05. *)
Theorem time_label_minutes (hours minutes : Z) :
  0 <= minutes < 60 ->
  exists d1 d2 : ascii,
    Ui.time_label hours minutes
    = (Js.string_of_Z hours ++ ":" ++ String d1 (String d2 EmptyString))%string
    /\ (Z.of_N (N_of_ascii d1) - 48) * 10 + (Z.of_N (N_of_ascii d2) - 48)
       = minutes.
Proof.
  intros [Hlo Hhi]. unfold Ui.time_label.
  destruct minutes as [|m|m]; [| |lia].
  - exists "0"%char, "0"%char. split; reflexivity.
  - do 6 (try (destruct m as [m|m|]; try lia));
      (eexists _, _; split; [vm_compute; reflexivity | reflexivity]).
Qed.

Lemma time_label_minutes_witness :
  exists d1 d2 : ascii,
    Ui.time_label 9 5
    = (Js.string_of_Z 9 ++ ":" ++ String d1 (String d2 EmptyString))%string
    /\ (Z.of_N (N_of_ascii d1) - 48) * 10 + (Z.of_N (N_of_ascii d2) - 48)
       = 5.
Proof. apply time_label_minutes. lia. Defined.

(** ** Loading the avatar scripts *)

Section LoadScript.

Variable loads : option string -> bool.

Lemma loadScript_steps_all (res : list string) (steps i : nat) :
  (i < length res)%nat ->
  (length res - i <= steps)%nat ->
  (forall u, u ∈ drop i res -> loads (Some u) = true) ->
  Agent.loadScript_steps loads res steps i
  = (Agent.requests (drop i res) ++ [Agent.InitExp])%list.
Proof.
  revert i. induction steps as [|steps IH]; intros i Hi Hsteps Hall; [lia|].
  destruct (lookup_lt_is_Some_2 res i Hi) as [u Hu].
  rewrite (drop_S _ _ _ Hu) in *. simpl. rewrite Hu.
  rewrite (Hall u) by (left).
  destruct (Nat.ltb_spec (i + 1) (length res)) as [Hlt|Hge].
  - f_equal. replace (i + 1)%nat with (S i) in * by lia.
    apply IH; [lia | lia |].
    intros v Hv. apply Hall. now right.
  - rewrite drop_ge by lia. reflexivity.
Qed.

Lemma loadScript_steps_fail (before after : list string) (u : string)
    (steps i : nat) :
  (i <= length before)%nat ->
  (length (before ++ u :: after) - i <= steps)%nat ->
  (forall v, v ∈ drop i before -> loads (Some v) = true) ->
  loads (Some u) = false ->
  Agent.loadScript_steps loads (before ++ u :: after) steps i
  = Agent.requests (drop i before ++ [u]).
Proof.
  revert i. induction steps as [|steps IH]; intros i Hi Hsteps Hall Hu.
  { rewrite length_app in Hsteps. simpl in Hsteps. lia. }
  simpl. destruct (decide (i = length before)) as [->|Hne].
  - rewrite list_lookup_middle by reflexivity. rewrite Hu.
    rewrite drop_ge by lia. reflexivity.
  - assert (i < length before)%nat as Hlt by lia.
    destruct (lookup_lt_is_Some_2 before i Hlt) as [x Hx].
    rewrite lookup_app_l by assumption. rewrite Hx.
    rewrite (drop_S _ _ _ Hx) in *.
    rewrite (Hall x) by (left).
    assert ((i + 1 <? length (before ++ u :: after))%nat = true) as ->.
    { apply Nat.ltb_lt. rewrite length_app. simpl. lia. }
    simpl. f_equal. replace (i + 1)%nat with (S i) in * by lia.
    apply IH; [lia | lia | | assumption].
    intros v Hv. apply Hall. now right.
Qed.

End LoadScript.

(** X23. The avatar scripts load one after the other, and the avatar is
    initialised last: when every script loads, [loadScript(0)] requests
    them in list order and then calls [initExp] once; when one fails to
    load, the requests stop with it, and [initExp] is never called. The
    step budget of the model is never used up. *)
Theorem scripts_load_in_order (loads : option string -> bool)
    (res : list string) :
  res <> [] ->
  ((forall u, u ∈ res -> loads (Some u) = true) ->
   Agent.loadScript loads res 0
   = (Agent.requests res ++ [Agent.InitExp])%list)
  /\ (forall before u after,
        res = (before ++ u :: after)%list ->
        (forall v, v ∈ before -> loads (Some v) = true) ->
        loads (Some u) = false ->
        Agent.loadScript loads res 0 = Agent.requests (before ++ [u])).
Proof.
  intros Hne. split.
  - intros Hall. unfold Agent.loadScript.
    rewrite (loadScript_steps_all loads res _ 0).
    + reflexivity.
    + destruct res; [contradiction|simpl; lia].
    + lia.
    + exact Hall.
  - intros before u after -> Hall Hu. unfold Agent.loadScript.
    rewrite (loadScript_steps_fail loads before after u _ 0).
    + reflexivity.
    + lia.
    + lia.
    + exact Hall.
    + exact Hu.
Qed.

Lemma scripts_load_in_order_witness :
  ((forall u, u ∈ ["core.js"; "live2d.js"; "index.js"] ->
              (fun _ : option string => true) (Some u) = true) ->
   Agent.loadScript (fun _ => true) ["core.js"; "live2d.js"; "index.js"] 0
   = (Agent.requests ["core.js"; "live2d.js"; "index.js"]
      ++ [Agent.InitExp])%list)
  /\ (forall before u after,
        ["core.js"; "live2d.js"; "index.js"] = (before ++ u :: after)%list ->
        (forall v, v ∈ before ->
                   (fun _ : option string => true) (Some v) = true) ->
        (fun _ : option string => true) (Some u) = false ->
        Agent.loadScript (fun _ => true) ["core.js"; "live2d.js"; "index.js"]
          0
        = Agent.requests (before ++ [u])).
Proof.
  apply (scripts_load_in_order (fun _ => true)
           ["core.js"; "live2d.js"; "index.js"]).
  discriminate.
Defined.

(** One script of three fails to load: the request for it is the last
    event, and the avatar is not initialised. *)
Example second_script_fails :
  Agent.loadScript
    (fun url => negb (bool_decide (url = Some "live2d.js")))
    ["core.js"; "live2d.js"; "index.js"] 0
  = [Agent.GetScript (Some "core.js"); Agent.GetScript (Some "live2d.js")].
Proof. vm_compute. reflexivity. Qed.

(** ** Overwriting a slot *)

(** X24. A call that is overwritten at its slot is lost: when a new call
    starts at a slot, whatever entry the slot held is replaced, and a
    finalize event carrying any other call id than the new one dispatches
    nothing and leaves the new entry, with its empty argument string, in
    place. *)
Theorem overwritten_call_is_never_dispatched (w : world)
    (start finish : jsval) (k : Z) (cid fname old : jsval) :
  is_call_start start k cid fname ->
  is_call_done finish k old ->
  cid <> old ->
  exists w',
    deliver [Parsed start; Parsed finish] w = (Ok tt, w')
    /\ ws_sends (trace w') = ws_sends (trace w)
    /\ pendingCalls w' !! k = Some (PendingCall cid fname EmptyString).
Proof.
  intros Hstart (Ht & Hs & Hi & Hc) Hne. subst old.
  destruct (call_start_delivered w start k cid fname Hstart)
    as (es & Hrun & Hes & _).
  set (w1 := logged es
               (with_pendingCalls
                  (insert k (PendingCall cid fname EmptyString)) w)) in *.
  assert (pendingCalls w1 !! k = Some (PendingCall cid fname EmptyString))
    as Hk by (destruct w; simpl; apply lookup_insert_eq).
  exists (logged [EventLog "response.output_item.done"] w1).
  split; [|split].
  - rewrite (deliver_cons _ _ _ _ Hrun). simpl. unfold mbind, M_bind.
    rewrite (route_done w1 finish Ht). unfold try_catch.
    pose proof (prop_str_defined _ _ _ Ht) as Hmsg.
    now rewrite (done_gate_closed
                   (logged [EventLog "response.output_item.done"] w1)
                   finish k Hmsg Hs _ Hi Hk (strict_eq_differ _ _ Hne)).
  - destruct w. simpl. rewrite !ws_sends_app, Hes. simpl.
    now rewrite !app_nil_r.
  - exact Hk.
Qed.

Lemma overwritten_call_is_never_dispatched_witness :
  exists w',
    deliver [Parsed (JObj [("type", JStr "response.output_item.added");
                           ("item", Sample.call_item "c2")]);
             Parsed (Sample.done "c1")] (Sample.pending Open Open)
    = (Ok tt, w')
    /\ ws_sends (trace w') = ws_sends (trace (Sample.pending Open Open))
    /\ pendingCalls w' !! 0
       = Some (PendingCall (JStr "c2") (JStr "get_stock") EmptyString).
Proof.
  apply (overwritten_call_is_never_dispatched (Sample.pending Open Open)
           (JObj [("type", JStr "response.output_item.added");
                  ("item", Sample.call_item "c2")])
           (Sample.done "c1") 0 (JStr "c2") (JStr "get_stock") (JStr "c1")).
  - unfold is_call_start. repeat split; try reflexivity. left. reflexivity.
  - repeat split; reflexivity.
  - discriminate.
Defined.
